(** * The user store of the web client ([web/src/store/user.ts])

    A shallow embedding of the store's state container ([LocalState]), of
    its asynchronous operations and of the session bootstrap
    ([initialUserStore]), followed by the properties the specification
    states about them.

    Conventions of the embedding.
    - A JavaScript object used as a record from string keys to values
      ([Record<string, V>], a settings message) is an insertion-ordered list
      of key/value pairs. Property reads take the first pair of a key,
      property writes overwrite it in place or append a new pair, so the
      enumeration order of [for ... in], [Object.keys] and [Object.values]
      is the order of the list. (JavaScript enumerates keys that are
      canonical array indices first; resource names such as [users/1] are
      not of that form, and the theorems below are about property reads
      and about a scan that finds nothing, which do not depend on the
      enumeration order.)
      The account and statistics maps and the settings are keyed by
      resource names of the server ([users/1]) and by field names of the
      messages, and only their own properties are modelled. Tags are
      chosen by users, so the accumulator of the tag-count getter, an
      object literal, is read through [Object.prototype] as JavaScript
      reads it.
    - Counts are proto [int32] values carried by JavaScript numbers; sums of
      such counts are exact, and they are integers of [Z] here.
    - An [async] function is run to completion against a description of
      the replies of the remote services: a computation takes the world
      (the store, the log of remote calls issued so far, the patches sent
      to the workspace store) to an outcome and a new world. A thrown
      exception keeps the world it was thrown in, as in JavaScript. *)

From Stdlib Require Import List String ZArith Lia Bool DecimalString.
Import ListNotations.
Open Scope string_scope.
Open Scope list_scope.

Set Implicit Arguments.

(** * The embedding

    ** JavaScript objects as ordered records *)

Module JsObject.

Section Ops.
Context {V : Type}.

Definition Obj := list (string * V).

(** [{}] *)
Definition empty : Obj := [].

(** [o[k]]: [None] stands for [undefined]. *)
Fixpoint get (o : Obj) (k : string) : option V :=
  match o with
  | [] => None
  | (k', v) :: rest => if String.eqb k' k then Some v else get rest k
  end.

(** [o[k] = v] *)
Fixpoint set (o : Obj) (k : string) (v : V) : Obj :=
  match o with
  | [] => [(k, v)]
  | (k', v') :: rest =>
      if String.eqb k' k then (k', v) :: rest else (k', v') :: set rest k v
  end.

(** [delete o[k]] *)
Definition delete (o : Obj) (k : string) : Obj :=
  filter (fun kv => negb (String.eqb (fst kv) k)) o.

(** [Object.keys(o)], also the order of [for (const k in o)]. *)
Definition keys (o : Obj) : list string := map fst o.

(** [Object.values(o)] *)
Definition values (o : Obj) : list V := map snd o.

(** [Object.assign(target, source)], and what a later [...source] does
    inside an object literal: every own property of [source] is written
    to the target in enumeration order. *)
Definition assign (target source : Obj) : Obj :=
  fold_left (fun acc kv => set acc (fst kv) (snd kv)) source target.

(** No key occurs twice: what every JavaScript object satisfies. *)
Definition wf (o : Obj) : Prop := NoDup (keys o).

Definition has (o : Obj) (k : string) : bool :=
  match get o k with Some _ => true | None => false end.
End Ops.

Arguments Obj V : clear implicits.

End JsObject.

Import JsObject.

(** ** Messages, state container and remote services *)

Section UserStore.
(** The error values of the transport layer, and the fields of the
    generated messages this module passes through without reading them
    (their declarations are generated from the proto files, outside this
    module). *)
Context {RpcError Payload : Type}.

Record User := mkUser {
  user_name : string;
  user_username : string;
  user_rest : Payload
}.

Record Inbox := mkInbox {
  inbox_name : string;
  inbox_rest : Payload
}.

Record UserStats := mkUserStats {
  stats_name : string;
  stats_tagCount : Obj Z;
  stats_rest : Payload
}.

Definition Shortcut := Payload.
Definition PartialUser := Payload.
Definition PartialInbox := Payload.

(** A field of a settings object holds a string or [undefined] ([None]). *)
Definition FieldValue := option string.

(** A settings message and a [Partial<UserSetting>] are objects from
    field names to field values; the module reads [name], [locale] and
    [appearance]. *)
Definition UserSetting := Obj FieldValue.

(** [setting.field]: [undefined] when the key is absent or holds
    [undefined]. *)
Definition readField (setting : UserSetting) (field : string) : option string :=
  match get setting field with
  | Some value => value
  | None => None
  end.

(** [class LocalState] *)
Record LocalState := mkLocalState {
  currentUser : option string;
  userSetting : option UserSetting;
  shortcuts : list Shortcut;
  inboxes : list Inbox;
  userMapByName : Obj User;
  userStatsByName : Obj UserStats;
  statsStateId : string
}.

(** [Partial<LocalState>]: [None] is a key the patch does not have; for
    the two optional fields [Some None] is the key set to [undefined]. *)
Record PartialLocalState := mkPartial {
  p_currentUser : option (option string);
  p_userSetting : option (option UserSetting);
  p_shortcuts : option (list Shortcut);
  p_inboxes : option (list Inbox);
  p_userMapByName : option (Obj User);
  p_userStatsByName : option (Obj UserStats);
  p_statsStateId : option string
}.

Definition noFields : PartialLocalState :=
  mkPartial None None None None None None None.

Definition orKeep {A} (patch : option A) (old : A) : A :=
  match patch with Some v => v | None => old end.

(** [setPartial(partial) { Object.assign(this, partial); }] *)
Definition setPartial (partial : PartialLocalState) (this : LocalState) : LocalState :=
  {| currentUser := orKeep (p_currentUser partial) (currentUser this);
     userSetting := orKeep (p_userSetting partial) (userSetting this);
     shortcuts := orKeep (p_shortcuts partial) (shortcuts this);
     inboxes := orKeep (p_inboxes partial) (inboxes this);
     userMapByName := orKeep (p_userMapByName partial) (userMapByName this);
     userStatsByName := orKeep (p_userStatsByName partial) (userStatsByName this);
     statsStateId := orKeep (p_statsStateId partial) (statsStateId this) |}.

(** The patches the store writes. *)
Definition patchUserMapByName (m : Obj User) : PartialLocalState :=
  mkPartial None None None None (Some m) None None.
Definition patchUserSetting (s : UserSetting) : PartialLocalState :=
  mkPartial None (Some (Some s)) None None None None None.
Definition patchShortcuts (l : list Shortcut) : PartialLocalState :=
  mkPartial None None (Some l) None None None None.
Definition patchInboxes (l : list Inbox) : PartialLocalState :=
  mkPartial None None None (Some l) None None None.
Definition patchUserStatsByName (m : Obj UserStats) : PartialLocalState :=
  mkPartial None None None None None (Some m) None.
Definition patchSession (user : option string) (setting : option UserSetting)
           (m : Obj User) : PartialLocalState :=
  mkPartial (Some user) (Some setting) None None (Some m) None None.

(** [new LocalState()], with the identifier [uniqueId()] returned. *)
Definition newLocalState (id : string) : LocalState :=
  mkLocalState None None [] [] empty empty id.

(** [x || 0] on a number that may be [undefined]. *)
Definition orZero (x : option Z) : Z :=
  match x with
  | Some n => if Z.eqb n 0 then 0%Z else n
  | None => 0%Z
  end.

(** [stats.tagCount[tag]] for a [tag] taken from [Object.keys(stats.tagCount)]. *)
Definition countOf (stats : UserStats) (tag : string) : Z :=
  match get (stats_tagCount stats) tag with Some n => n | None => 0%Z end.

(** What a property of the getter's accumulator [const tagCount = {}] can
    read as: a number, a string (what [+] makes once an operand is not a
    number), or a member inherited from [Object.prototype], of which the
    getter uses that it is truthy and its conversion to a string. *)
Inductive JsValue : Type :=
| JsNumber (n : Z)
| JsString (s : string)
| JsInherited (text : string).

(** The function-valued properties of [Object.prototype]. *)
Definition objectPrototypeFunctions : list string :=
  ["constructor"; "hasOwnProperty"; "isPrototypeOf"; "propertyIsEnumerable";
   "toLocaleString"; "toString"; "valueOf"; "__defineGetter__"; "__defineSetter__";
   "__lookupGetter__"; "__lookupSetter__"].

(** The names under which an object literal inherits a member. *)
Definition inheritedName (name : string) : bool :=
  String.eqb name "__proto__" || existsb (String.eqb name) objectPrototypeFunctions.

(** [String(f)] for a built-in function, by the name it is read under:
    the text is left to the JavaScript engine. *)
Variable functionSource : string -> string.

(** What an object literal inherits under a name: [__proto__] reads as
    the prototype itself, the other members are functions. *)
Definition inherited (name : string) : option JsValue :=
  if String.eqb name "__proto__" then Some (JsInherited "[object Object]")
  else if existsb (String.eqb name) objectPrototypeFunctions
       then Some (JsInherited (functionSource name))
       else None.

(** [o[name]] on an object literal: the own property, or else the
    inherited one. *)
Definition readProperty (o : Obj JsValue) (name : string) : option JsValue :=
  match get o name with
  | Some v => Some v
  | None => inherited name
  end.

(** [o[name] = v] for a number or string [v]: the setter of [__proto__]
    ignores such a value, any other name becomes an own property. *)
Definition writeProperty (o : Obj JsValue) (name : string) (v : JsValue) : Obj JsValue :=
  if String.eqb name "__proto__" then o else set o name v.

(** [String(n)] for an integer. *)
Definition decimal (n : Z) : string := NilZero.string_of_int (Z.to_int n).

(** [x || 0]: [undefined], [0] and the empty string are falsy. *)
Definition orZeroValue (x : option JsValue) : JsValue :=
  match x with
  | None => JsNumber 0
  | Some (JsNumber n) => if Z.eqb n 0 then JsNumber 0 else JsNumber n
  | Some (JsString s) => if String.eqb s "" then JsNumber 0 else JsString s
  | Some (JsInherited text) => JsInherited text
  end.

(** [x + n] for a number [n]: a sum of numbers, or else a concatenation
    of strings. *)
Definition plusNumber (x : JsValue) (n : Z) : JsValue :=
  match x with
  | JsNumber m => JsNumber (m + n)
  | JsString s => JsString (s ++ decimal n)%string
  | JsInherited text => JsString (text ++ decimal n)%string
  end.

(** The inner loop of the getter: [for (const tag of Object.keys(stats.tagCount))
    tagCount[tag] = (tagCount[tag] || 0) + stats.tagCount[tag];]. *)
Definition addStats (tagCount : Obj JsValue) (stats : UserStats) : Obj JsValue :=
  fold_left
    (fun tagCount tag =>
       writeProperty tagCount tag
                     (plusNumber (orZeroValue (readProperty tagCount tag))
                                 (countOf stats tag)))
    (keys (stats_tagCount stats)) tagCount.

(** [get tagCount()] *)
Definition tagCount (this : LocalState) : Obj JsValue :=
  fold_left addStats (values (userStatsByName this)) empty.

(** The string of an optional string that is truthy: [undefined] and the
    empty string are falsy. *)
Definition truthy (s : option string) : option string :=
  match s with
  | Some v => if String.eqb v "" then None else Some v
  | None => None
  end.

(** [get currentUserStats()] *)
Definition currentUserStats (this : LocalState) : option UserStats :=
  match truthy (currentUser this) with
  | None => None
  | Some name => get (userStatsByName this) name
  end.

(** The requests of the four service clients, with the fields the store
    fills in. *)
Inductive Request : Type :=
| GetCurrentSession
| GetUser (name : string)
| SearchUsers (query : string) (pageSize : Z)
| ListUsers
| UpdateUser (user : PartialUser) (updateMask : list string)
| DeleteUser (name : string)
| UpdateUserSetting (setting : UserSetting) (updateMask : list string)
| GetUserSetting (name : string)
| ListAllUserStats
| GetUserStats (name : string)
| ListShortcuts (parent : string)
| ListInboxes (parent : string)
| UpdateInbox (inbox : PartialInbox) (updateMask : list string)
| DeleteInbox (name : string).

(** What the store reads of each response. *)
Definition Response (r : Request) : Type :=
  match r with
  | GetCurrentSession => option User
  | GetUser _ => User
  | SearchUsers _ _ => list User
  | ListUsers => list User
  | UpdateUser _ _ => User
  | DeleteUser _ => unit
  | UpdateUserSetting _ _ => UserSetting
  | GetUserSetting _ => UserSetting
  | ListAllUserStats => list UserStats
  | GetUserStats _ => UserStats
  | ListShortcuts _ => list Shortcut
  | ListInboxes _ => list Inbox
  | UpdateInbox _ _ => Inbox
  | DeleteInbox _ => unit
  end.

(** What can be thrown: a rejection of a remote call, carried as it is,
    or [new Error(message)]. *)
Inductive Error : Type :=
| RemoteError (e : RpcError)
| JsError (message : string).

(** The two patches sent to [workspaceStore.state.setPartial]. *)
Inductive WorkspacePatch : Type :=
| LocaleAndAppearance (locale appearance : option string)
| LocaleOnly (locale : string).

Record World := mkWorld {
  store : LocalState;
  calls : list Request;
  workspacePatches : list WorkspacePatch
}.

(** The collaborators: the replies of the remote services ([inl] is a
    rejected promise; an operation sends any one request at most once, so
    a function of the request describes every behaviour of the services
    during one operation), the generated [UserSetting.fromPartial], the
    locale matcher of [@/utils/i18n] and [navigator.language]. *)
Variable remote : forall r : Request, RpcError + Response r.
Variable fromPartial : UserSetting -> UserSetting.
Variable findNearestMatchedLanguage : string -> string.
Variable navigator_language : string.

(** *** Computations *)

Definition M (A : Type) : Type := World -> (Error + A) * World.

Definition ret {A} (a : A) : M A := fun w => (inr a, w).

Definition bind {A B} (m : M A) (k : A -> M B) : M B :=
  fun w =>
    match m w with
    | (inr a, w') => k a w'
    | (inl e, w') => (inl e, w')
    end.

Definition throw {A} (e : Error) : M A := fun w => (inl e, w).

(** [await client.method(request)] *)
Definition await (r : Request) : M (Response r) :=
  fun w =>
    let w' := mkWorld (store w) (calls w ++ [r]) (workspacePatches w) in
    match remote r with
    | inl e => (inl (RemoteError e), w')
    | inr v => (inr v, w')
    end.

(** [state.field] *)
Definition read {A} (field : LocalState -> A) : M A :=
  fun w => (inr (field (store w)), w).

(** [state.setPartial(partial)] *)
Definition state_setPartial (partial : PartialLocalState) : M unit :=
  fun w => (inr tt, mkWorld (setPartial partial (store w)) (calls w) (workspacePatches w)).

(** [workspaceStore.state.setPartial(patch)] *)
Definition workspace_setPartial (patch : WorkspacePatch) : M unit :=
  fun w => (inr tt, mkWorld (store w) (calls w) (workspacePatches w ++ [patch])).

(** [try { body } catch { handler }] *)
Definition tryCatch {A} (body handler : M A) : M A :=
  fun w =>
    match body w with
    | (inr a, w') => (inr a, w')
    | (inl _, w') => handler w'
    end.

Notation "x <- m ;; k" := (bind m (fun x => k))
  (at level 61, m at next level, right associativity).
Notation "m ;; k" := (bind m (fun _ => k))
  (at level 61, right associativity).

(** ** The operations of [userStore]

    An object literal that starts with a spread, [{...o, k: v}], is a
    copy of [o] with [k] written to it; a copy of an object is the same
    value. [{...undefined}] copies nothing. *)

Definition spreadOpt {V} (o : option (Obj V)) : Obj V :=
  match o with Some o' => o' | None => empty end.

Definition getOrFetchUserByName (name : string) : M User :=
  userMap <- read userMapByName ;;
  match get userMap name with
  | Some user => ret user
  | None =>
      user <- await (GetUser name) ;;
      state_setPartial (patchUserMapByName (set userMap name user)) ;;
      ret user
  end.

(** [for (const name in userMap) if (userMap[name].username === username)
    return userMap[name];]: [Some] is the value returned from inside the
    loop, [None] is the loop running to its end. *)
Fixpoint scanUsernames (userMap : Obj User) (names : list string)
         (username : string) : option User :=
  match names with
  | [] => None
  | name :: rest =>
      match get userMap name with
      | Some user =>
          if String.eqb (user_username user) username then Some user
          else scanUsernames userMap rest username
      | None => scanUsernames userMap rest username
      end
  end.

Definition notFoundMessage (username : string) : string :=
  ("User with username " ++ username ++ " not found")%string.

Definition getOrFetchUserByUsername (username : string) : M User :=
  userMap <- read userMapByName ;;
  match scanUsernames userMap (keys userMap) username with
  | Some user => ret user
  | None =>
      users <- await (SearchUsers username 10) ;;
      match find (fun u => String.eqb (user_username u) username) users with
      | None => throw (JsError (notFoundMessage username))
      | Some user =>
          state_setPartial (patchUserMapByName (set userMap (user_name user) user)) ;;
          ret user
      end
  end.

Definition getUserByName (name : string) (state : LocalState) : option User :=
  get (userMapByName state) name.

(** [for (const user of users) userMap[user.name] = user;] *)
Definition putUsers (userMap : Obj User) (users : list User) : Obj User :=
  fold_left (fun userMap user => set userMap (user_name user) user) users userMap.

(** The loop writes into the object the state holds and the patch hands the
    same object back; nothing is written before the listing has arrived. *)
Definition fetchUsers : M (list User) :=
  users <- await ListUsers ;;
  userMap <- read userMapByName ;;
  state_setPartial (patchUserMapByName (putUsers userMap users)) ;;
  ret users.

Definition updateUser (user : PartialUser) (updateMask : list string) : M unit :=
  updatedUser <- await (UpdateUser user updateMask) ;;
  userMap <- read userMapByName ;;
  state_setPartial (patchUserMapByName (set userMap (user_name updatedUser) updatedUser)).

(** [delete userMap[name]] is likewise a write to the state's own object,
    after the remote call has returned. *)
Definition deleteUser (name : string) : M unit :=
  await (DeleteUser name) ;;
  userMap <- read userMapByName ;;
  state_setPartial (patchUserMapByName (delete userMap name)).

Definition updateUserSetting (userSetting' : UserSetting) (updateMask : list string)
  : M unit :=
  current <- read currentUser ;;
  match truthy current with
  | None => throw (JsError "No current user")
  | Some current =>
      let settingWithName := set userSetting' "name" (Some current) in
      updatedUserSetting <- await (UpdateUserSetting settingWithName updateMask) ;;
      cached <- read userSetting ;;
      state_setPartial
        (patchUserSetting (fromPartial (assign (spreadOpt cached) updatedUserSetting)))
  end.

Definition fetchShortcuts : M unit :=
  current <- read currentUser ;;
  match truthy current with
  | None => ret tt
  | Some current =>
      shortcuts' <- await (ListShortcuts current) ;;
      state_setPartial (patchShortcuts shortcuts')
  end.

Definition fetchInboxes : M unit :=
  current <- read currentUser ;;
  match truthy current with
  | None => throw (JsError "No current user available")
  | Some current =>
      inboxes' <- await (ListInboxes current) ;;
      state_setPartial (patchInboxes inboxes')
  end.

Definition updateInbox (inbox : PartialInbox) (updateMask : list string) : M Inbox :=
  updatedInbox <- await (UpdateInbox inbox updateMask) ;;
  cached <- read inboxes ;;
  state_setPartial
    (patchInboxes
       (map (fun i => if String.eqb (inbox_name i) (inbox_name updatedInbox)
                      then updatedInbox else i) cached)) ;;
  ret updatedInbox.

Definition deleteInbox (name : string) : M unit :=
  await (DeleteInbox name) ;;
  cached <- read inboxes ;;
  state_setPartial
    (patchInboxes (filter (fun i => negb (String.eqb (inbox_name i) name)) cached)).

Definition fetchUserStats (user : option string) : M unit :=
  fetched <-
    match truthy user with
    | None =>
        userStats <- await ListAllUserStats ;;
        ret (fold_left (fun byName stats => set byName (stats_name stats) stats)
                       userStats empty)
    | Some user' =>
        userStats <- await (GetUserStats user') ;;
        ret (set empty user' userStats)
    end ;;
  cached <- read userStatsByName ;;
  state_setPartial (patchUserStatsByName (assign cached fetched)).

(** [export const initialUserStore] *)
Definition initialUserStore : M unit :=
  tryCatch
    (session <- await GetCurrentSession ;;
     match session with
     | None => state_setPartial (patchSession None None empty)
     | Some current =>
         setting <- await (GetUserSetting (user_name current)) ;;
         state_setPartial
           (patchSession (Some (user_name current)) (Some (fromPartial setting))
                         (set empty (user_name current) current)) ;;
         workspace_setPartial
           (LocaleAndAppearance (readField setting "locale")
                                (readField setting "appearance"))
     end)
    (let locale := findNearestMatchedLanguage navigator_language in
     workspace_setPartial (LocaleOnly locale)).

(** The eleven operations of the store that talk to a remote service,
    run for their effect. *)
Inductive Operation : Type :=
| CallGetOrFetchUserByName (name : string)
| CallGetOrFetchUserByUsername (username : string)
| CallFetchUsers
| CallUpdateUser (user : PartialUser) (updateMask : list string)
| CallDeleteUser (name : string)
| CallUpdateUserSetting (setting : UserSetting) (updateMask : list string)
| CallFetchShortcuts
| CallFetchInboxes
| CallUpdateInbox (inbox : PartialInbox) (updateMask : list string)
| CallDeleteInbox (name : string)
| CallFetchUserStats (user : option string).

Definition discard {A} (m : M A) : M unit := _ <- m ;; ret tt.

Definition run (op : Operation) : M unit :=
  match op with
  | CallGetOrFetchUserByName name => discard (getOrFetchUserByName name)
  | CallGetOrFetchUserByUsername username => discard (getOrFetchUserByUsername username)
  | CallFetchUsers => discard fetchUsers
  | CallUpdateUser user updateMask => updateUser user updateMask
  | CallDeleteUser name => deleteUser name
  | CallUpdateUserSetting setting updateMask => updateUserSetting setting updateMask
  | CallFetchShortcuts => fetchShortcuts
  | CallFetchInboxes => fetchInboxes
  | CallUpdateInbox inbox updateMask => discard (updateInbox inbox updateMask)
  | CallDeleteInbox name => deleteInbox name
  | CallFetchUserStats user => fetchUserStats user
  end.

(** ** What the specification measures the code against *)

(** The sum of one tag's counts over a sequence of statistics entries; an
    entry without the tag counts for nothing. *)
Definition totalOf (tag : string) (entries : list UserStats) : Z :=
  fold_right (fun stats total => (countOf stats tag + total)%Z) 0%Z entries.

(** Some entry of the sequence carries the tag. *)
Definition taggedIn (tag : string) (entries : list UserStats) : bool :=
  existsb (fun stats => has (stats_tagCount stats) tag) entries.

(** [fromPartial] hands a field it is given a string for back unchanged. *)
Definition keepsField (field : string) : Prop :=
  forall (o : UserSetting) (v : string),
    get o field = Some (Some v) -> get (fromPartial o) field = Some (Some v).

(** The getter's loop on numbers alone: what it computes when no read of
    the accumulator reaches [Object.prototype]. *)
Definition addCounts (totals : Obj Z) (stats : UserStats) : Obj Z :=
  fold_left
    (fun totals tag => set totals tag (orZero (get totals tag) + countOf stats tag)%Z)
    (keys (stats_tagCount stats)) totals.

(** An object of numbers as an object of values. *)
Definition numbers (totals : Obj Z) : Obj JsValue :=
  map (fun kv => (fst kv, JsNumber (snd kv))) totals.

(** No tag of the entry is the name of a member of [Object.prototype]. *)
Definition plainTags (stats : UserStats) : Prop :=
  forall tag, In tag (keys (stats_tagCount stats)) -> inheritedName tag = false.

(** The last user of a listing that carries a given name. *)
Definition lastNamed (name : string) (users : list User) : option User :=
  find (fun u => String.eqb (user_name u) name) (rev users).
End UserStore.

(** ** Sample data

    Accounts, settings, statistics and two descriptions of the remote
    services, used to run the operations on concrete inputs. The
    pass-through fields are plain strings here, and so are the errors of
    the transport layer. *)

Definition alice : @User string := mkUser "users/1" "alice" "Alice".
Definition bob : @User string := mkUser "users/2" "bob" "Bob".
Definition robert : @User string := mkUser "users/2" "robert" "Robert".
Definition alicia : @User string := mkUser "users/3" "alicia" "Alicia".

Definition aliceSetting : UserSetting :=
  [("name", Some "users/1"); ("locale", Some "en"); ("appearance", Some "dark")].

(** A response to a settings update that carries no [appearance]. *)
Definition frenchSetting : UserSetting :=
  [("name", Some "users/1"); ("locale", Some "fr")].

Definition aliceStats : @UserStats string :=
  mkUserStats "users/1" [("work", 2%Z); ("home", 1%Z)] "".
Definition bobStats : @UserStats string :=
  mkUserStats "users/2" [("work", 3%Z); ("travel", 4%Z)] "".

(** Two entries that share the tag [constructor], a member's name. *)
Definition carolStats : @UserStats string :=
  mkUserStats "users/4" [("constructor", 2%Z); ("work", 2%Z)] "".
Definition daveStats : @UserStats string :=
  mkUserStats "users/5" [("constructor", 3%Z); ("work", 3%Z)] "".
Definition taggedStore : @LocalState string :=
  mkLocalState None None [] [] []
               [("users/4", carolStats); ("users/5", daveStats)] "1".

Definition mention : @Inbox string := mkInbox "inboxes/1" "unread".
Definition reply : @Inbox string := mkInbox "inboxes/2" "unread".
Definition stranger : @Inbox string := mkInbox "inboxes/9" "archived".

(** A store with a session: two cached accounts, two statistics entries
    and two inbox items. *)
Definition sampleStore : @LocalState string :=
  mkLocalState (Some "users/1") (Some aliceSetting) [] [mention; reply]
               [("users/1", alice); ("users/2", bob)]
               [("users/1", aliceStats); ("users/2", bobStats)] "1".

Definition sampleWorld : @World string := mkWorld sampleStore [] [].

(** The world at start-up. *)
Definition freshWorld : @World string := mkWorld (newLocalState "1") [] [].

(** Services that reject every call. *)
Definition offline (r : @Request string) : string + Response r :=
  inl "UNAVAILABLE".

(** Services that answer every call. [getUser] resolves the handle
    [users/alice] to the account whose resource name is [users/1]. *)
Definition online (r : @Request string) : string + Response r :=
  match r return string + Response r with
  | GetCurrentSession => inr (Some alice)
  | GetUser name =>
      if String.eqb name "users/alice" then inr alice
      else if String.eqb name "users/3" then inr alicia
      else inl "NOT_FOUND"
  | SearchUsers _ _ => inr [alice; alicia]
  | ListUsers => inr [robert; alicia]
  | UpdateUser _ _ => inr robert
  | DeleteUser _ => inr tt
  | UpdateUserSetting _ _ => inr frenchSetting
  | GetUserSetting _ => inr aliceSetting
  | ListAllUserStats => inr [aliceStats; bobStats]
  | GetUserStats _ => inr aliceStats
  | ListShortcuts _ => inr ["pinned"]
  | ListInboxes _ => inr [mention]
  | UpdateInbox _ _ => inr stranger
  | DeleteInbox _ => inr tt
  end.

(** A [fromPartial] of the generated shape for a message with four string
    fields: every declared field is copied, or defaults to the empty
    string. *)
Definition sampleFromPartial (o : UserSetting) : UserSetting :=
  map (fun field => (field, match readField o field with
                            | Some v => Some v
                            | None => Some ""
                            end))
      ["name"; "locale"; "appearance"; "memoVisibility"].

Definition sampleLocale (preference : string) : string := "en".

(** A rendering of built-in functions. *)
Definition sampleSource (name : string) : string :=
  ("function " ++ name ++ "() { [native code] }")%string.

(** ** The generation token and the key invariant *)

Section Token.
Context {RpcError Payload : Type}.

(** [const setStatsStateId = (id = uniqueId()) => { state.statsStateId = id; }]:
    [fresh] is what [uniqueId()] returns when the argument is left out. *)
Definition setStatsStateId (fresh : string) (id : option string)
  : @M RpcError Payload unit :=
  fun w =>
    let this := store w in
    let id' := match id with Some given => given | None => fresh end in
    (inr tt,
     mkWorld (mkLocalState (currentUser this) (userSetting this) (shortcuts this)
                           (inboxes this) (userMapByName this) (userStatsByName this)
                           id')
             (calls w) (workspacePatches w)).

(** Every account of the map is filed under its own resource name. *)
Definition keyedByName (userMap : Obj (@User Payload)) : Prop :=
  forall name user, get userMap name = Some user -> user_name user = name.
End Token.

(** Services with no session: [getCurrentSession] answers without a user,
    every other call is rejected. *)
Definition signedOut (r : @Request string) : string + Response r :=
  match r return string + Response r with
  | GetCurrentSession => inr None
  | _ => inl "UNAUTHENTICATED"
  end.

(** Services whose session resolves and whose other calls are rejected. *)
Definition settingsDown (r : @Request string) : string + Response r :=
  match r return string + Response r with
  | GetCurrentSession => inr (Some alice)
  | _ => inl "UNAVAILABLE"
  end.

(** A world whose inboxes hold an older copy of [stranger]. *)
Definition strangerUnread : @Inbox string := mkInbox "inboxes/9" "unread".
Definition crowdedWorld : @World string :=
  mkWorld (mkLocalState (Some "users/1") (Some aliceSetting) [] [mention; strangerUnread]
                        [("users/1", alice)] [] "1") [] [].

(** * Properties

    ** Reads after writes on objects *)

Section ObjectFacts.
Context {V : Type}.
Implicit Types (o source target : Obj V) (k : string) (v : V).

Lemma get_set_same o k v : get (set o k v) k = Some v.
Proof.
  induction o as [|[k' v'] rest IH]; simpl.
  - now rewrite String.eqb_refl.
  - destruct (String.eqb k' k) eqn:E; simpl; rewrite E; auto.
Qed.

Lemma get_set_other o k v k' : k <> k' -> get (set o k v) k' = get o k'.
Proof.
  intros Hne. induction o as [|[k0 v0] rest IH]; simpl.
  - destruct (String.eqb k k') eqn:E; auto.
    apply String.eqb_eq in E. contradiction.
  - destruct (String.eqb k0 k) eqn:E; simpl.
    + apply String.eqb_eq in E. subst k0.
      destruct (String.eqb k k') eqn:E'; auto.
      apply String.eqb_eq in E'. contradiction.
    + now rewrite IH.
Qed.

Lemma get_set o k v k' :
  get (set o k v) k' = if String.eqb k k' then Some v else get o k'.
Proof.
  destruct (String.eqb k k') eqn:E.
  - apply String.eqb_eq in E. subst. apply get_set_same.
  - apply String.eqb_neq in E. now apply get_set_other.
Qed.

Lemma get_delete_same o k : get (delete o k) k = None.
Proof.
  induction o as [|[k' v'] rest IH]; simpl; auto.
  destruct (String.eqb k' k) eqn:E; simpl; auto. now rewrite E.
Qed.

Lemma get_delete_other o k k' : k <> k' -> get (delete o k) k' = get o k'.
Proof.
  intros Hne. induction o as [|[k0 v0] rest IH]; simpl; auto.
  destruct (String.eqb k0 k) eqn:E; simpl.
  - apply String.eqb_eq in E. subst k0.
    destruct (String.eqb k k') eqn:E'; auto.
    apply String.eqb_eq in E'. contradiction.
  - now rewrite IH.
Qed.

Lemma get_None_not_key o k : get o k = None <-> ~ In k (keys o).
Proof.
  induction o as [|[k' v'] rest IH]; simpl.
  - tauto.
  - destruct (String.eqb k' k) eqn:E.
    + apply String.eqb_eq in E. split; [discriminate | intros H; exfalso; auto].
    + apply String.eqb_neq in E. rewrite IH. tauto.
Qed.

Lemma get_Some_key o k v : get o k = Some v -> In k (keys o).
Proof.
  intros H. destruct (in_dec string_dec k (keys o)) as [Hin|Hout]; auto.
  apply get_None_not_key in Hout. congruence.
Qed.

Lemma get_Some_value o k v : get o k = Some v -> In v (values o).
Proof.
  induction o as [|[k' v'] rest IH]; simpl; [discriminate|].
  destruct (String.eqb k' k); [intros [= ->]; now left | auto].
Qed.

Lemma get_delete_absent o k : get o k = None -> delete o k = o.
Proof.
  induction o as [|[k' v'] rest IH]; simpl; auto.
  destruct (String.eqb k' k); [discriminate|].
  intros H. simpl. now rewrite IH.
Qed.

Lemma keys_set_present o k v : In k (keys o) -> keys (set o k v) = keys o.
Proof.
  induction o as [|[k' v'] rest IH]; simpl; [tauto|].
  destruct (String.eqb k' k) eqn:E; simpl; auto.
  apply String.eqb_neq in E. intros [H|H]; [contradiction|].
  now rewrite IH.
Qed.

Lemma keys_set_absent o k v : ~ In k (keys o) -> keys (set o k v) = keys o ++ [k].
Proof.
  induction o as [|[k' v'] rest IH]; simpl; auto.
  intros H. destruct (String.eqb k' k) eqn:E.
  - apply String.eqb_eq in E. exfalso; auto.
  - simpl. rewrite IH; auto.
Qed.

(** The operations keep objects well formed. *)
Lemma wf_empty : wf (@empty V).
Proof. constructor. Qed.

Lemma wf_set o k v : wf o -> wf (set o k v).
Proof.
  unfold wf. intros H.
  destruct (in_dec string_dec k (keys o)) as [Hin|Hout].
  - now rewrite keys_set_present.
  - rewrite keys_set_absent by assumption.
    apply NoDup_app; auto.
    + repeat constructor. simpl. tauto.
    + intros x Hx [<-|[]]. contradiction.
Qed.

Lemma wf_delete o k : wf o -> wf (delete o k).
Proof.
  unfold wf, keys, delete. induction o as [|[k' v'] rest IH]; simpl; auto.
  intros H. inversion H as [|? ? Hnotin Hrest]; subst.
  destruct (String.eqb k' k); simpl; auto.
  constructor; auto.
  rewrite in_map_iff. intros [[k0 v0] [Hk Hin]]. simpl in Hk. subst k0.
  apply filter_In in Hin. destruct Hin as [Hin _].
  apply Hnotin. apply in_map_iff. now exists (k', v0).
Qed.

Lemma wf_assign source : forall target, wf target -> wf (assign target source).
Proof.
  unfold assign. induction source as [|[k v] rest IH]; simpl; auto.
  intros target H. apply IH. now apply wf_set.
Qed.

(** A property the source omits survives [Object.assign]. *)
Lemma get_assign_omitted source k :
  forall target, get source k = None -> get (assign target source) k = get target k.
Proof.
  unfold assign. induction source as [|[k' v'] rest IH]; simpl; auto.
  intros target. destruct (String.eqb k' k) eqn:E; [discriminate|].
  intros H. rewrite IH by assumption.
  apply get_set_other. now apply String.eqb_neq.
Qed.

(** A property of the source is present afterwards. *)
Lemma get_assign_present source k :
  forall target, In k (keys source) -> In k (keys (assign target source)).
Proof.
  unfold assign. induction source as [|[k' v'] rest IH]; simpl; [tauto|].
  intros target [->|Hin].
  - destruct (in_dec string_dec k (keys rest)) as [Hr|Hr]; auto.
    apply get_None_not_key in Hr.
    pose proof (get_assign_omitted rest k (set target k v') Hr) as Hg.
    unfold assign in Hg. rewrite get_set_same in Hg.
    eapply get_Some_key; eauto.
  - auto.
Qed.

(** On a well-formed source, [Object.assign] gives the source's value. *)
Lemma get_assign_wf source k v :
  forall target, wf source -> get source k = Some v ->
                 get (assign target source) k = Some v.
Proof.
  unfold assign, wf. induction source as [|[k' v'] rest IH]; simpl; [discriminate|].
  intros target Hwf. inversion Hwf as [|? ? Hnotin Hrest]; subst.
  destruct (String.eqb k' k) eqn:E.
  - apply String.eqb_eq in E. subst k'. intros [= ->].
    apply get_None_not_key in Hnotin.
    pose proof (get_assign_omitted rest k (set target k v) Hnotin) as Hg.
    unfold assign in Hg. rewrite Hg. apply get_set_same.
  - intros H. now apply IH.
Qed.
Lemma has_true_iff o k : has o k = true <-> In k (keys o).
Proof.
  unfold has. destruct (get o k) eqn:E.
  - split; auto. intros _. eapply get_Some_key; eauto.
  - apply get_None_not_key in E. split; [discriminate | tauto].
Qed.
End ObjectFacts.

Section StateFacts.
Context {Payload : Type}.
Implicit Types (this : @LocalState Payload) (stats : @UserStats Payload).
Implicit Types (entries : list (@UserStats Payload)) (acc : Obj Z).

(** ** The state container *)

Lemma setPartial_noFields this : setPartial noFields this = this.
Proof. now destruct this. Qed.

Lemma setPartial_same_inboxes this :
  setPartial (patchInboxes (inboxes this)) this = this.
Proof. now destruct this. Qed.

Lemma orZero_Some n : orZero (Some n) = n.
Proof. simpl. destruct (Z.eqb n 0) eqn:E; auto. apply Z.eqb_eq in E. auto. Qed.

Lemma countOf_untagged stats tag :
  has (stats_tagCount stats) tag = false -> countOf stats tag = 0%Z.
Proof. unfold has, countOf. destruct (get _ tag); [discriminate | auto]. Qed.

Lemma totalOf_untagged tag entries :
  taggedIn tag entries = false -> totalOf tag entries = 0%Z.
Proof.
  induction entries as [|stats rest IH]; simpl; auto.
  intros H. apply orb_false_iff in H. destruct H as [H1 H2].
  rewrite (countOf_untagged _ _ H1), IH; auto.
Qed.

(** One pass of the loop on numbers over distinct tags. *)
Lemma get_inner_loop stats tag (tags : list string) :
  NoDup tags ->
  forall acc,
    get (fold_left
           (fun acc t => set acc t (orZero (get acc t) + countOf stats t)%Z) tags acc) tag
    = if in_dec string_dec tag tags
      then Some (orZero (get acc tag) + countOf stats tag)%Z
      else get acc tag.
Proof.
  induction 1 as [|t rest Hnotin Hnodup IH]; intros acc; simpl; auto.
  rewrite IH. destruct (string_dec t tag) as [->|Hne].
  - destruct (in_dec string_dec tag rest); [contradiction|].
    apply get_set_same.
  - rewrite get_set_other by assumption.
    destruct (in_dec string_dec tag rest); auto.
Qed.

Lemma get_addCounts acc stats tag :
  wf (stats_tagCount stats) ->
  get (addCounts acc stats) tag
  = if has (stats_tagCount stats) tag
    then Some (orZero (get acc tag) + countOf stats tag)%Z
    else get acc tag.
Proof.
  intros Hwf. unfold addCounts. rewrite get_inner_loop by exact Hwf.
  destruct (in_dec string_dec tag (keys (stats_tagCount stats))) as [Hin|Hout].
  - apply has_true_iff in Hin. now rewrite Hin.
  - destruct (has (stats_tagCount stats) tag) eqn:E; auto.
    apply has_true_iff in E. contradiction.
Qed.

Lemma get_outer_loop tag entries :
  Forall (fun stats => wf (stats_tagCount stats)) entries ->
  forall acc,
    get (fold_left addCounts entries acc) tag
    = if taggedIn tag entries
      then Some (orZero (get acc tag) + totalOf tag entries)%Z
      else get acc tag.
Proof.
  induction 1 as [|stats rest Hwf Hrest IH]; intros acc; cbn [fold_left]; auto.
  rewrite IH, get_addCounts by assumption.
  cbn [taggedIn existsb totalOf fold_right].
  fold (taggedIn tag rest). fold (totalOf tag rest).
  destruct (has (stats_tagCount stats) tag) eqn:Hhas; cbn [orb].
  - rewrite orZero_Some.
    destruct (taggedIn tag rest) eqn:Hrest'.
    + f_equal. lia.
    + rewrite (totalOf_untagged _ _ Hrest'). f_equal. lia.
  - rewrite (countOf_untagged _ _ Hhas).
    destruct (taggedIn tag rest); auto.
Qed.

(** *** The getter on tags that are not names of inherited members *)

Variable functionSource : string -> string.

Lemma get_numbers (totals : Obj Z) tag :
  get (numbers totals) tag
  = match get totals tag with Some n => Some (JsNumber n) | None => None end.
Proof.
  induction totals as [|[k n] rest IH]; simpl; auto.
  destruct (String.eqb k tag); auto.
Qed.

Lemma set_numbers (totals : Obj Z) tag n :
  set (numbers totals) tag (JsNumber n) = numbers (set totals tag n).
Proof.
  induction totals as [|[k m] rest IH]; simpl; auto.
  destruct (String.eqb k tag); simpl; auto. now rewrite IH.
Qed.

Lemma inherited_plain tag : inheritedName tag = false -> inherited functionSource tag = None.
Proof.
  unfold inheritedName, inherited. intros H.
  apply orb_false_iff in H. destruct H as [H1 H2]. now rewrite H1, H2.
Qed.

(** On a tag that names no inherited member, one step of the getter is
    one step of the loop on numbers. *)
Lemma step_numbers (totals : Obj Z) tag n :
  inheritedName tag = false ->
  writeProperty (numbers totals) tag
                (plusNumber (orZeroValue (readProperty functionSource (numbers totals) tag))
                            n)
  = numbers (set totals tag (orZero (get totals tag) + n)%Z).
Proof.
  intros Hplain. unfold writeProperty, readProperty.
  assert (Hproto : String.eqb tag "__proto__" = false).
  { unfold inheritedName in Hplain. now apply orb_false_iff in Hplain. }
  rewrite Hproto, get_numbers, <- set_numbers. f_equal.
  destruct (get totals tag) as [m|].
  - simpl. destruct (Z.eqb m 0); reflexivity.
  - now rewrite inherited_plain.
Qed.

Lemma addStats_numbers stats :
  plainTags stats ->
  forall totals,
    addStats functionSource (numbers totals) stats = numbers (addCounts totals stats).
Proof.
  unfold plainTags, addStats, addCounts.
  induction (keys (stats_tagCount stats)) as [|tag rest IH]; intros Hplain totals;
    simpl; auto.
  rewrite step_numbers by (apply Hplain; now left).
  apply IH. intros t Ht. apply Hplain. now right.
Qed.

Lemma tagCount_numbers entries :
  Forall plainTags entries ->
  forall totals,
    fold_left (addStats functionSource) entries (numbers totals)
    = numbers (fold_left addCounts entries totals).
Proof.
  induction 1 as [|stats rest Hplain Hrest IH]; intros totals; simpl; auto.
  rewrite addStats_numbers by assumption. apply IH.
Qed.

(** X21. For a state whose statistics entries are well-formed objects with
    no tag that is the name of a member of [Object.prototype], reading the
    tag-count aggregate gives, for every tag, the number that is the sum
    of that tag's counts over all cached entries, and nothing for a tag
    that no entry carries. *)
Theorem tagCount_fieldwise_sum (this : @LocalState Payload) :
  Forall (fun stats => wf (stats_tagCount stats)) (values (userStatsByName this)) ->
  Forall plainTags (values (userStatsByName this)) ->
  forall tag,
    get (tagCount functionSource this) tag
    = if taggedIn tag (values (userStatsByName this))
      then Some (JsNumber (totalOf tag (values (userStatsByName this))))
      else None.
Proof.
  intros Hwf Hplain tag. unfold tagCount.
  change (@empty JsValue) with (numbers (@empty Z)).
  rewrite tagCount_numbers by assumption.
  rewrite get_numbers, get_outer_loop by assumption.
  simpl. destruct (taggedIn tag _); auto.
Qed.

(** C1. The aggregate is not the field-wise sum when a tag is the name of
    a member of [Object.prototype]. For two entries that count the tags
    [constructor] and [work] 2 and 3 times, the getter reads the inherited
    [constructor] of its fresh accumulator as the running total and
    appends the counts to its text, where the sum is 5; the tag [work] of
    the same entries is summed to 5. *)
Theorem tagCount_inherited_member :
  get (tagCount functionSource taggedStore) "constructor"
  = Some (JsString ((functionSource "constructor" ++ "2") ++ "3")%string)
  /\ totalOf "constructor" (values (userStatsByName taggedStore)) = 5%Z
  /\ get (tagCount functionSource taggedStore) "work" = Some (JsNumber 5).
Proof.
  split; [|split; reflexivity].
  vm_compute. destruct (functionSource "constructor"); reflexivity.
Qed.
End StateFacts.

(** ** The account map and the inboxes *)

Section StoreFacts.
Context {RpcError Payload : Type}.
Variable remote : forall r : @Request Payload, RpcError + Response r.
Implicit Types (w : @World Payload) (users : list (@User Payload)).
Implicit Types (userMap : Obj (@User Payload)) (name username : string).

Lemma find_snoc {A} (f : A -> bool) (l : list A) (x : A) :
  find f (l ++ [x])
  = match find f l with
    | Some y => Some y
    | None => if f x then Some x else None
    end.
Proof.
  induction l as [|a rest IH]; simpl; auto.
  destruct (f a); auto.
Qed.

Lemma get_putUsers users name :
  forall userMap,
    get (putUsers userMap users) name
    = match lastNamed name users with
      | Some user => Some user
      | None => get userMap name
      end.
Proof.
  unfold putUsers, lastNamed.
  induction users as [|u rest IH]; intros userMap; simpl; auto.
  rewrite IH, find_snoc.
  destruct (find _ (rev rest)); auto.
  rewrite get_set.
  destruct (String.eqb (user_name u) name); auto.
Qed.

Lemma lastNamed_None name users :
  ~ In name (map user_name users) -> lastNamed name users = None.
Proof.
  intros Hout. unfold lastNamed.
  destruct (find _ (rev users)) as [u|] eqn:E; auto.
  apply find_some in E. destruct E as [Hin Heq].
  apply String.eqb_eq in Heq. apply in_rev in Hin.
  exfalso. apply Hout. rewrite <- Heq. now apply in_map.
Qed.

Lemma lastNamed_Some (user : @User Payload) users :
  In user users ->
  exists stored, lastNamed (user_name user) users = Some stored
                 /\ In stored users /\ user_name stored = user_name user.
Proof.
  intros Hin. unfold lastNamed.
  destruct (find _ (rev users)) as [u|] eqn:E.
  - apply find_some in E. destruct E as [Hu Heq].
    apply String.eqb_eq in Heq. apply in_rev in Hu.
    exists u. auto.
  - apply in_rev in Hin.
    pose proof (find_none _ _ E _ Hin) as Hf. simpl in Hf.
    now rewrite String.eqb_refl in Hf.
Qed.

Lemma lastNamed_NoDup (user : @User Payload) users :
  NoDup (map user_name users) -> In user users ->
  lastNamed (user_name user) users = Some user.
Proof.
  intros Hnd Hin.
  destruct (lastNamed_Some _ _ Hin) as [stored [Hl [Hs Hname]]].
  rewrite Hl. f_equal.
  clear Hl. induction users as [|u rest IH]; [destruct Hin|].
  simpl in Hnd. inversion Hnd as [|? ? Hnotin Hrest]; subst.
  destruct Hin as [->|Hin], Hs as [->|Hs]; auto.
  - exfalso. apply Hnotin. rewrite <- Hname. now apply in_map.
  - exfalso. apply Hnotin. rewrite Hname. now apply in_map.
Qed.

Lemma truthy_Some (v : string) (x : option string) :
  truthy x = Some v -> x = Some v /\ v <> "".
Proof.
  destruct x as [u|]; simpl; [|discriminate].
  destruct (String.eqb u "") eqn:E; [discriminate|].
  intros [= ->]. split; auto. now apply String.eqb_neq.
Qed.

Lemma scanUsernames_None userMap username names :
  (forall name user, get userMap name = Some user -> user_username user <> username) ->
  scanUsernames userMap names username = None.
Proof.
  intros Hno. induction names as [|name rest IH]; simpl; auto.
  destruct (get userMap name) as [user|] eqn:E; auto.
  destruct (String.eqb (user_username user) username) eqn:Eu; auto.
  apply String.eqb_eq in Eu. exfalso. exact (Hno _ _ E Eu).
Qed.

Lemma find_username_None username users :
  (forall u, In u users -> user_username u <> username) ->
  find (fun u => String.eqb (user_username u) username) users = None.
Proof.
  intros Hno. destruct (find _ users) as [u|] eqn:E; auto.
  apply find_some in E. destruct E as [Hin Heq].
  apply String.eqb_eq in Heq. exfalso. exact (Hno _ Hin Heq).
Qed.

Lemma map_unmatched_inboxes (updated : @Inbox Payload) cached :
  (forall i, In i cached -> inbox_name i <> inbox_name updated) ->
  map (fun i => if String.eqb (inbox_name i) (inbox_name updated) then updated else i)
      cached = cached.
Proof.
  induction cached as [|i rest IH]; simpl; auto.
  intros Hno. rewrite IH by auto.
  destruct (String.eqb (inbox_name i) (inbox_name updated)) eqn:E; auto.
  apply String.eqb_eq in E. exfalso. exact (Hno i (or_introl eq_refl) E).
Qed.

(** ** The properties of the specification *)

(** C2. A name that is a key of the account map is answered from the
    cache: the cached value is returned, no remote call is issued and the
    state container (the whole world) is as before. *)
Theorem getOrFetchUserByName_cached name (user : User) w :
  get (userMapByName (store w)) name = Some user ->
  getOrFetchUserByName remote name w = (inr user, w).
Proof.
  intros Hhit. unfold getOrFetchUserByName, bind, read. simpl. now rewrite Hhit.
Qed.

(** C6. After a listing succeeds, every returned entity is in the account
    map under its own name (under a name listed twice, the later entity),
    and a name that the response does not contain reads as before the
    call, so no cached entry is removed. The listing is returned. *)
Theorem fetchUsers_additive w users :
  remote ListUsers = inr users ->
  let after := store (snd (fetchUsers remote w)) in
  fst (fetchUsers remote w) = inr users
  /\ (forall user, In user users ->
        exists stored, getUserByName (user_name user) after = Some stored
                       /\ In stored users /\ user_name stored = user_name user)
  /\ (NoDup (map user_name users) ->
      forall user, In user users -> getUserByName (user_name user) after = Some user)
  /\ (forall name, ~ In name (map user_name users) ->
        getUserByName name after = getUserByName name (store w)).
Proof.
  intros Hok. unfold fetchUsers, bind, await, read, state_setPartial, ret.
  rewrite Hok. cbn. unfold getUserByName. repeat split.
  - intros user Hin. rewrite get_putUsers.
    destruct (lastNamed_Some _ _ Hin) as [stored [Hl H]].
    rewrite Hl. exists stored. auto.
  - intros Hnd user Hin. rewrite get_putUsers.
    now rewrite lastNamed_NoDup.
  - intros name Hout. rewrite get_putUsers.
    now rewrite lastNamed_None.
Qed.

(** C8. After [updateUser] succeeds, the entry read by [getUserByName] at
    the response's name is the server's response itself, whatever partial
    user the caller sent and whatever was cached there before. *)
Theorem updateUser_caches_response (user : PartialUser) (updateMask : list string) w :
  fst (updateUser remote user updateMask w) = inr tt ->
  exists response,
    remote (UpdateUser user updateMask) = inr response
    /\ getUserByName (user_name response)
                     (store (snd (updateUser remote user updateMask w)))
       = Some response.
Proof.
  unfold updateUser, bind, await, read, state_setPartial.
  destruct (remote (UpdateUser user updateMask)) as [e|response]; cbn.
  - discriminate.
  - intros _. exists response. split; auto.
    unfold getUserByName. cbn. apply get_set_same.
Qed.

(** C10. When [updateInbox] succeeds and no cached inbox has the name of
    the response, the cached sequence (and the rest of the state) is as
    before, the response is not inserted, and it is returned. *)
Theorem updateInbox_unmatched (inbox : PartialInbox) (updateMask : list string) w
        (updated : Inbox) :
  remote (UpdateInbox inbox updateMask) = inr updated ->
  (forall i, In i (inboxes (store w)) -> inbox_name i <> inbox_name updated) ->
  updateInbox remote inbox updateMask w
  = (inr updated,
     mkWorld (store w) (calls w ++ [UpdateInbox inbox updateMask]) (workspacePatches w))
  /\ ~ In updated (inboxes (store (snd (updateInbox remote inbox updateMask w)))).
Proof.
  intros Hok Hno.
  assert (Hrun : updateInbox remote inbox updateMask w
                 = (inr updated,
                    mkWorld (store w) (calls w ++ [UpdateInbox inbox updateMask])
                            (workspacePatches w))).
  { unfold updateInbox, bind, await, read, state_setPartial, ret.
    rewrite Hok. cbn. rewrite map_unmatched_inboxes by assumption.
    now rewrite setPartial_same_inboxes. }
  split; auto. rewrite Hrun. cbn. intros Hin. now apply (Hno _ Hin).
Qed.

(** C3, as the code has it. When [getCurrentSession] is rejected, the
    bootstrap swallows the error, leaves the user store exactly as it was
    before the call (so the current-account marker and the settings are
    absent when they were absent before, as in a fresh store, and no field
    of the failed path is written), issues no further remote call, and
    sends one patch outward: the locale that [findNearestMatchedLanguage]
    picks for [navigator.language]. *)
Theorem initialUserStore_session_failure
        (fromPartial : UserSetting -> UserSetting)
        (findNearestMatchedLanguage : string -> string) (navigator_language : string)
        w (e : RpcError) :
  remote GetCurrentSession = inl e ->
  let bootstrap :=
    initialUserStore remote fromPartial findNearestMatchedLanguage navigator_language in
  bootstrap w
  = (inr tt,
     mkWorld (store w) (calls w ++ [GetCurrentSession])
             (workspacePatches w
                ++ [LocaleOnly (findNearestMatchedLanguage navigator_language)]))
  /\ (currentUser (store w) = None -> userSetting (store w) = None ->
      currentUser (store (snd (bootstrap w))) = None
      /\ userSetting (store (snd (bootstrap w))) = None).
Proof.
  intros Hfail bootstrap.
  assert (Hrun : bootstrap w
                 = (inr tt,
                    mkWorld (store w) (calls w ++ [GetCurrentSession])
                            (workspacePatches w
                               ++ [LocaleOnly (findNearestMatchedLanguage
                                                 navigator_language)]))).
  { unfold bootstrap, initialUserStore, tryCatch, bind, await.
    rewrite Hfail. reflexivity. }
  split; [exact Hrun|]. rewrite Hrun. cbn. intros H1 H2. now split.
Qed.

(** X16. The other failing path of the bootstrap: the session resolves to an
    account and the settings call is rejected. Nothing has been written
    by then, and the fallback locale is the one patch sent outward. *)
Lemma initialUserStore_setting_failure
      (fromPartial : UserSetting -> UserSetting)
      (findNearestMatchedLanguage : string -> string) (navigator_language : string)
      w (current : User) (e : RpcError) :
  remote GetCurrentSession = inr (Some current) ->
  remote (GetUserSetting (user_name current)) = inl e ->
  initialUserStore remote fromPartial findNearestMatchedLanguage navigator_language w
  = (inr tt,
     mkWorld (store w)
             (calls w ++ [GetCurrentSession] ++ [GetUserSetting (user_name current)])
             (workspacePatches w
                ++ [LocaleOnly (findNearestMatchedLanguage navigator_language)])).
Proof.
  intros Hsession Hsetting.
  unfold initialUserStore, tryCatch, bind, await.
  rewrite Hsession. cbn. rewrite Hsetting. cbn.
  now rewrite <- app_assoc.
Qed.

(** X22. For a name that is not a key of the account map, a successful
    [getOrFetchUserByName] issues one [getUser] request for that name,
    files the fetched entity under the requested name whatever name the
    response carries, leaves every other key as it was, and returns the
    entity. *)
Theorem getOrFetchUserByName_files_under_request name w (user : User) :
  get (userMapByName (store w)) name = None ->
  remote (GetUser name) = inr user ->
  let after := store (snd (getOrFetchUserByName remote name w)) in
  fst (getOrFetchUserByName remote name w) = inr user
  /\ calls (snd (getOrFetchUserByName remote name w)) = calls w ++ [GetUser name]
  /\ getUserByName name after = Some user
  /\ (forall other, other <> name ->
        getUserByName other after = getUserByName other (store w)).
Proof.
  intros Hmiss Hok.
  unfold getOrFetchUserByName, bind, read, await, state_setPartial, ret.
  cbn. rewrite Hmiss, Hok. cbn. unfold getUserByName. cbn.
  split; [reflexivity|]. split; [reflexivity|]. split; [apply get_set_same|].
  intros other Hne. apply get_set_other. congruence.
Qed.

(** C7. For a name that is not a key of the account map, when the services
    answer the request with an entity whose own name is the requested one,
    [getOrFetchUserByName] issues one single-resource fetch for that name,
    inserts the fetched entity into the map under the response's own name,
    leaves every other key as it was, and returns the entity. *)
Theorem getOrFetchUserByName_miss name w (user : User) :
  get (userMapByName (store w)) name = None ->
  remote (GetUser name) = inr user ->
  user_name user = name ->
  let after := store (snd (getOrFetchUserByName remote name w)) in
  fst (getOrFetchUserByName remote name w) = inr user
  /\ calls (snd (getOrFetchUserByName remote name w)) = calls w ++ [GetUser name]
  /\ getUserByName (user_name user) after = Some user
  /\ (forall other, other <> user_name user ->
        getUserByName other after = getUserByName other (store w)).
Proof.
  intros Hmiss Hok Hecho.
  unfold getOrFetchUserByName, bind, read, await, state_setPartial, ret.
  cbn. rewrite Hmiss, Hok. cbn. unfold getUserByName. cbn. rewrite Hecho.
  split; [reflexivity|]. split; [reflexivity|]. split; [apply get_set_same|].
  intros other Hne. apply get_set_other. congruence.
Qed.

(** C9. When no cached account has the username, the lookup sends one
    search request for it with page size 10; when the search answers and
    no returned account has exactly that username, however many accounts
    it returned, the lookup throws the error [User with username ... not
    found] and the state container is as before. *)
Theorem getOrFetchUserByUsername_not_found username w :
  (forall name user,
      get (userMapByName (store w)) name = Some user ->
      user_username user <> username) ->
  calls (snd (getOrFetchUserByUsername remote username w))
  = calls w ++ [SearchUsers username 10]
  /\ (forall users,
         remote (SearchUsers username 10) = inr users ->
         (forall u, In u users -> user_username u <> username) ->
         getOrFetchUserByUsername remote username w
         = (inl (JsError (notFoundMessage username)),
            mkWorld (store w) (calls w ++ [SearchUsers username 10])
                    (workspacePatches w))).
Proof.
  intros Hcache.
  unfold getOrFetchUserByUsername, bind, read, await, state_setPartial, ret, throw.
  cbn. rewrite (scanUsernames_None _ _ Hcache). split.
  - destruct (remote (SearchUsers username 10)) as [e|users]; cbn; auto.
    destruct (find _ users); reflexivity.
  - intros users Hok Hnone. rewrite Hok. cbn.
    now rewrite (find_username_None _ Hnone).
Qed.

(** C5. When [updateUserSetting] succeeds, there is a current account and
    the one request sent carries that account's name in its [name] field
    whatever the caller's setting held there (its other fields are the
    caller's). The settings stored are [fromPartial] of a merge of the
    cached settings and the response, field by field: a field that the
    response does not have reads in the merge as in the cached settings,
    and a field that the response has reads as in the response. So a field
    of the cached settings that the response omits keeps its value, and a
    field of the response has the response's value, for the fields that
    [fromPartial] hands back as given. *)
Theorem updateUserSetting_name_and_merge
        (fromPartial : UserSetting -> UserSetting)
        (setting : UserSetting) (updateMask : list string) w :
  let after := store (snd (updateUserSetting remote fromPartial setting updateMask w)) in
  fst (updateUserSetting remote fromPartial setting updateMask w) = inr tt ->
  exists current sent updated merge,
    currentUser (store w) = Some current
    /\ calls (snd (updateUserSetting remote fromPartial setting updateMask w))
       = calls w ++ [UpdateUserSetting sent updateMask]
    /\ get sent "name" = Some (Some current)
    /\ (forall field, field <> "name" -> get sent field = get setting field)
    /\ remote (UpdateUserSetting sent updateMask) = inr updated
    /\ userSetting after = Some (fromPartial merge)
    /\ (forall field,
           get updated field = None ->
           get merge field = get (spreadOpt (userSetting (store w))) field)
    /\ (wf updated ->
        forall field value,
          get updated field = Some value -> get merge field = Some value)
    /\ (forall cached field v,
           userSetting (store w) = Some cached ->
           get cached field = Some (Some v) ->
           get updated field = None ->
           keepsField fromPartial field ->
           exists stored, userSetting after = Some stored
                          /\ get stored field = Some (Some v))
    /\ (wf updated ->
        forall field v,
          get updated field = Some (Some v) ->
          keepsField fromPartial field ->
          exists stored, userSetting after = Some stored
                         /\ get stored field = Some (Some v)).
Proof.
  unfold updateUserSetting, bind, read, await, state_setPartial, throw.
  cbn. destruct (truthy (currentUser (store w))) as [current|] eqn:Hcurrent;
    [|discriminate].
  destruct (remote (UpdateUserSetting (set setting "name" (Some current)) updateMask))
    as [e|updated] eqn:Hremote; cbn; [discriminate|].
  intros _.
  exists current, (set setting "name" (Some current)), updated,
    (assign (spreadOpt (userSetting (store w))) updated).
  split; [exact (proj1 (@truthy_Some current _ Hcurrent))|].
  split; [reflexivity|].
  split; [apply get_set_same|].
  split; [intros field Hne; apply get_set_other; congruence|].
  split; [exact Hremote|].
  split; [reflexivity|].
  split; [intros field Homitted; now apply get_assign_omitted|].
  split; [intros Hwf field value Hfield; now apply get_assign_wf|].
  split.
  - intros cached field v Hcached Hfield Homitted Hkeeps.
    eexists. split; [reflexivity|].
    apply Hkeeps. rewrite get_assign_omitted by assumption.
    rewrite Hcached. exact Hfield.
  - intros Hwf field v Hfield Hkeeps.
    eexists. split; [reflexivity|].
    apply Hkeeps. now apply get_assign_wf.
Qed.

(** C4. Whichever of the eleven operations is run, if it issues a remote
    call and that call is rejected, the rejection is what the operation
    throws and the state container is exactly as before the call; every
    account that could be read by name before can still be read, so a
    failed [deleteUser] removes nothing. *)
Theorem remote_failure_leaves_state
        (fromPartial : UserSetting -> UserSetting)
        (op : Operation) w (r : Request) (e : RpcError) :
  calls (snd (run remote fromPartial op w)) = calls w ++ [r] ->
  remote r = inl e ->
  fst (run remote fromPartial op w) = inl (RemoteError e)
  /\ store (snd (run remote fromPartial op w)) = store w
  /\ (forall name,
         getUserByName name (store (snd (run remote fromPartial op w)))
         = getUserByName name (store w)).
Proof.
  intros Hcalls Hfail.
  assert (Hmain : fst (run remote fromPartial op w) = inl (RemoteError e)
                  /\ store (snd (run remote fromPartial op w)) = store w).
  { revert Hcalls.
    destruct op; unfold run, discard, getOrFetchUserByName, getOrFetchUserByUsername,
      fetchUsers, updateUser, deleteUser, updateUserSetting, fetchShortcuts,
      fetchInboxes, updateInbox, deleteInbox, fetchUserStats,
      bind, read, await, state_setPartial, ret, throw; cbn;
    repeat match goal with
           | |- context [truthy ?x] => destruct (truthy x) eqn:?; cbn
           | |- context [get ?m ?k] => destruct (get m k) eqn:?; cbn
           | |- context [scanUsernames ?m ?l ?u] =>
               destruct (scanUsernames m l u) eqn:?; cbn
           | |- context [remote ?q] => destruct (remote q) eqn:?; cbn
           | |- context [find ?f ?l] => destruct (find f l) eqn:?; cbn
           end;
    intros Hcalls;
    try (exfalso; apply (f_equal (@List.length Request)) in Hcalls;
         rewrite ?length_app in Hcalls; simpl in Hcalls; lia);
    apply app_inv_head in Hcalls; injection Hcalls as <-;
    match goal with
    | H : remote _ = _ |- _ => rewrite Hfail in H; try discriminate H;
                               injection H as <-
    end; auto. }
  destruct Hmain as [H1 H2]. repeat split; auto.
  intros name. now rewrite H2.
Qed.
End StoreFacts.

(** ** The properties on the sample data *)

Lemma sampleStats_wf :
  Forall (fun stats : @UserStats string => wf (stats_tagCount stats))
         (values (userStatsByName sampleStore)).
Proof.
  repeat apply Forall_cons; try apply Forall_nil; unfold wf; simpl;
    repeat apply NoDup_cons; try apply NoDup_nil; simpl; intuition discriminate.
Defined.

Lemma sampleFromPartial_keeps_appearance : keepsField sampleFromPartial "appearance".
Proof.
  intros o v H. unfold sampleFromPartial, readField. simpl. now rewrite H.
Defined.

Lemma sampleStore_has_no_ali :
  forall name user,
    get (userMapByName (store sampleWorld)) name = Some user ->
    user_username user <> "ali".
Proof.
  intros name user H.
  unfold sampleWorld, sampleStore in H. cbn [store userMapByName get] in H.
  destruct (String.eqb "users/1" name); [injection H as <-; discriminate|].
  destruct (String.eqb "users/2" name); [injection H as <-; discriminate|].
  discriminate.
Defined.

Lemma sampleStats_plain :
  Forall (@plainTags string) (values (userStatsByName sampleStore)).
Proof.
  repeat apply Forall_cons; try apply Forall_nil; intros tag Hin; simpl in Hin;
    repeat (destruct Hin as [<-|Hin]; [reflexivity|]); destruct Hin.
Defined.

(** X21 on two statistics entries with the shared tag [work] and the tags
    [home] and [travel] of one entry each. *)
Lemma tagCount_sample_totals :
  get (tagCount sampleSource sampleStore) "work" = Some (JsNumber 5)
  /\ get (tagCount sampleSource sampleStore) "home" = Some (JsNumber 1)
  /\ get (tagCount sampleSource sampleStore) "travel" = Some (JsNumber 4)
  /\ get (tagCount sampleSource sampleStore) "idle" = None.
Proof.
  pose proof (@tagCount_fieldwise_sum _ sampleSource sampleStore sampleStats_wf
                                      sampleStats_plain) as Hsum.
  rewrite !Hsum. split; [|split; [|split]]; reflexivity.
Defined.

(** C2 on a cached name, with the services down. *)
Lemma getOrFetchUserByName_cached_sample :
  getOrFetchUserByName offline "users/1" sampleWorld = (inr alice, sampleWorld).
Proof.
  apply getOrFetchUserByName_cached. reflexivity.
Defined.

(** C3's bootstrap at start-up, with the services down. *)
Lemma initialUserStore_offline_sample :
  initialUserStore offline sampleFromPartial sampleLocale "fr-CA" freshWorld
  = (inr tt, mkWorld (newLocalState "1") [GetCurrentSession] [LocaleOnly "en"])
  /\ currentUser
       (store (snd (initialUserStore offline sampleFromPartial sampleLocale "fr-CA"
                                     freshWorld))) = None
  /\ userSetting
       (store (snd (initialUserStore offline sampleFromPartial sampleLocale "fr-CA"
                                     freshWorld))) = None.
Proof.
  destruct (initialUserStore_session_failure
              offline sampleFromPartial sampleLocale "fr-CA" freshWorld
              (e := "UNAVAILABLE") eq_refl) as [Hrun Habsent].
  split; [exact Hrun | exact (Habsent eq_refl eq_refl)].
Defined.

(** C3 as stated fails on a store that already has a session: a bootstrap
    that succeeded, then one whose session call is rejected. The marker and
    the settings of the first are still there. *)
Lemma initialUserStore_failure_keeps_session :
  let signedIn :=
    snd (initialUserStore online sampleFromPartial sampleLocale "fr-CA" freshWorld) in
  let after :=
    snd (initialUserStore offline sampleFromPartial sampleLocale "fr-CA" signedIn) in
  offline GetCurrentSession = inl "UNAVAILABLE"
  /\ currentUser (store after) = Some "users/1"
  /\ userSetting (store after) = Some (sampleFromPartial aliceSetting)
  /\ workspacePatches after
     = [LocaleAndAppearance (Some "en") (Some "dark"); LocaleOnly "en"].
Proof.
  cbv zeta. split; [|split; [|split]]; reflexivity.
Qed.

(** C4 on a rejected [deleteUser]. *)
Lemma deleteUser_offline_sample :
  fst (run offline sampleFromPartial (CallDeleteUser "users/1") sampleWorld)
  = inl (RemoteError "UNAVAILABLE")
  /\ store (snd (run offline sampleFromPartial (CallDeleteUser "users/1") sampleWorld))
     = sampleStore
  /\ getUserByName
       "users/1"
       (store (snd (run offline sampleFromPartial (CallDeleteUser "users/1") sampleWorld)))
     = Some alice.
Proof.
  destruct (remote_failure_leaves_state
              offline sampleFromPartial (CallDeleteUser "users/1") sampleWorld
              (DeleteUser "users/1") (e := "UNAVAILABLE") eq_refl eq_refl)
    as [Hthrown [Hstore Hread]].
  split; [exact Hthrown | split; [exact Hstore | rewrite Hread; reflexivity]].
Defined.

Lemma sampleFromPartial_keeps_locale : keepsField sampleFromPartial "locale".
Proof.
  intros o v H. unfold sampleFromPartial, readField. simpl. now rewrite H.
Defined.

Lemma frenchSetting_wf : wf frenchSetting.
Proof.
  unfold wf. simpl.
  repeat apply NoDup_cons; try apply NoDup_nil; simpl; intuition discriminate.
Defined.

(** C5 on a caller that names another account and a response that brings
    a new [locale] and carries no [appearance]: the request names the
    current account, the stored settings have the new locale and the old
    appearance. *)
Lemma updateUserSetting_sample :
  calls (snd (updateUserSetting online sampleFromPartial
                                [("name", Some "users/999"); ("locale", Some "fr")]
                                ["locale"] sampleWorld))
  = [UpdateUserSetting [("name", Some "users/1"); ("locale", Some "fr")] ["locale"]]
  /\ (exists stored,
        userSetting
          (store (snd (updateUserSetting online sampleFromPartial
                                         [("name", Some "users/999"); ("locale", Some "fr")]
                                         ["locale"] sampleWorld)))
        = Some stored
        /\ get stored "appearance" = Some (Some "dark"))
  /\ (exists stored,
        userSetting
          (store (snd (updateUserSetting online sampleFromPartial
                                         [("name", Some "users/999"); ("locale", Some "fr")]
                                         ["locale"] sampleWorld)))
        = Some stored
        /\ get stored "locale" = Some (Some "fr")).
Proof.
  destruct (updateUserSetting_name_and_merge
              online sampleFromPartial
              [("name", Some "users/999"); ("locale", Some "fr")]
              ["locale"] sampleWorld eq_refl)
    as [current [sent [updated [merge
         [_ [_ [_ [_ [Hresponse [_ [_ [_ [Hkept Hnew]]]]]]]]]]]]].
  split; [reflexivity|].
  injection Hresponse as <-.
  split.
  - exact (Hkept aliceSetting "appearance" "dark" eq_refl eq_refl eq_refl
                 sampleFromPartial_keeps_appearance).
  - exact (Hnew frenchSetting_wf "locale" "fr" eq_refl sampleFromPartial_keeps_locale).
Defined.

(** C6 on a listing that renames one cached account and brings a new one. *)
Lemma fetchUsers_sample :
  fst (fetchUsers online sampleWorld) = inr [robert; alicia]
  /\ getUserByName "users/2" (store (snd (fetchUsers online sampleWorld))) = Some robert
  /\ getUserByName "users/3" (store (snd (fetchUsers online sampleWorld))) = Some alicia
  /\ getUserByName "users/1" (store (snd (fetchUsers online sampleWorld))) = Some alice.
Proof.
  destruct (fetchUsers_additive online sampleWorld (users := [robert; alicia]) eq_refl)
    as [Hreturned [_ [Hlisted Hkept]]].
  assert (Hnames : NoDup (map user_name [robert; alicia])).
  { simpl. repeat apply NoDup_cons; try apply NoDup_nil; simpl; intuition discriminate. }
  split; [|split; [|split]].
  - exact Hreturned.
  - exact (Hlisted Hnames robert (or_introl eq_refl)).
  - exact (Hlisted Hnames alicia (or_intror (or_introl eq_refl))).
  - rewrite Hkept; [reflexivity|]. simpl. intuition discriminate.
Defined.

(** C7 on a name that the services echo. *)
Lemma getOrFetchUserByName_miss_sample :
  fst (getOrFetchUserByName online "users/3" sampleWorld) = inr alicia
  /\ calls (snd (getOrFetchUserByName online "users/3" sampleWorld))
     = [GetUser "users/3"]
  /\ getUserByName (user_name alicia)
                   (store (snd (getOrFetchUserByName online "users/3" sampleWorld)))
     = Some alicia
  /\ getUserByName "users/1"
                   (store (snd (getOrFetchUserByName online "users/3" sampleWorld)))
     = Some alice.
Proof.
  destruct (@getOrFetchUserByName_miss _ _ online "users/3" sampleWorld alicia
                                       eq_refl eq_refl eq_refl)
    as [Hreturned [Hcalls [Hstored Hkept]]].
  split; [exact Hreturned | split; [exact Hcalls | split; [exact Hstored|]]].
  rewrite Hkept; [reflexivity | discriminate].
Defined.

(** X22 on a handle that the services resolve to an account of another
    name: the entity is filed under the handle and nothing is filed under
    its own name. *)
Lemma getOrFetchUserByName_keyed_by_request :
  fst (getOrFetchUserByName online "users/alice" freshWorld) = inr alice
  /\ getUserByName "users/alice"
                   (store (snd (getOrFetchUserByName online "users/alice" freshWorld)))
     = Some alice
  /\ getUserByName (user_name alice)
                   (store (snd (getOrFetchUserByName online "users/alice" freshWorld)))
     = None.
Proof.
  destruct (@getOrFetchUserByName_files_under_request
              _ _ online "users/alice" freshWorld alice eq_refl eq_refl)
    as [Hreturned [_ [Hstored Hkept]]].
  split; [exact Hreturned | split; [exact Hstored|]].
  rewrite Hkept; [reflexivity | discriminate].
Defined.

(** C8 on an update that renames a cached account. *)
Lemma updateUser_sample :
  exists response,
    online (UpdateUser "rename" ["username"]) = inr response
    /\ getUserByName (user_name response)
                     (store (snd (updateUser online "rename" ["username"] sampleWorld)))
       = Some response.
Proof.
  apply updateUser_caches_response. reflexivity.
Defined.

(** C9 on a search that returns two accounts, neither with the username. *)
Lemma getOrFetchUserByUsername_sample :
  getOrFetchUserByUsername online "ali" sampleWorld
  = (inl (JsError "User with username ali not found"),
     mkWorld sampleStore [SearchUsers "ali" 10] []).
Proof.
  destruct (@getOrFetchUserByUsername_not_found _ _ online "ali" sampleWorld
                                                sampleStore_has_no_ali)
    as [_ Hthrows].
  apply (Hthrows [alice; alicia]); [reflexivity|].
  intros u [<-|[<-|[]]]; discriminate.
Defined.

(** C10 on a response whose name no cached inbox has. *)
Lemma updateInbox_sample :
  updateInbox online "archive" ["status"] sampleWorld
  = (inr stranger, mkWorld sampleStore [UpdateInbox "archive" ["status"]] [])
  /\ ~ In stranger
        (inboxes (store (snd (updateInbox online "archive" ["status"] sampleWorld)))).
Proof.
  apply (@updateInbox_unmatched _ _ online "archive" ["status"] sampleWorld stranger);
    [reflexivity|].
  intros i [<-|[<-|[]]]; discriminate.
Defined.

(** * Further properties of the store

    ** Helper lemmas *)

Section MoreFacts.
Context {RpcError Payload : Type}.
Variable remote : forall r : @Request Payload, RpcError + Response r.
Implicit Types (w : @World Payload) (users : list (@User Payload)).
Implicit Types (userMap : Obj (@User Payload)) (name username : string).

(** A scan over names of which one holds an account with the username
    ends on such an account. *)
Lemma scanUsernames_finds userMap username names :
  (exists name user, In name names /\ get userMap name = Some user
                     /\ user_username user = username) ->
  exists found name',
    scanUsernames userMap names username = Some found
    /\ In name' names /\ get userMap name' = Some found
    /\ user_username found = username.
Proof.
  induction names as [|name rest IH]; intros [k [user [Hin [Hget Hname]]]].
  - destruct Hin.
  - simpl. destruct (get userMap name) as [v|] eqn:Ehead.
    + destruct (String.eqb (user_username v) username) eqn:Ematch.
      * apply String.eqb_eq in Ematch.
        exists v, name.
        split; [reflexivity|]. split; [now left|]. split; assumption.
      * destruct Hin as [->|Hin].
        -- rewrite Hget in Ehead. injection Ehead as <-.
           apply String.eqb_neq in Ematch. contradiction.
        -- destruct IH as [found [name' [Hs [Hn [Hg Hu]]]]].
           { exists k, user. auto. }
           exists found, name'.
           split; [exact Hs|]. split; [now right|]. split; assumption.
    + destruct Hin as [->|Hin]; [congruence|].
      destruct IH as [found [name' [Hs [Hn [Hg Hu]]]]].
      { exists k, user. auto. }
      exists found, name'.
      split; [exact Hs|]. split; [now right|]. split; assumption.
Qed.

(** When one account only has the username, the scan ends on it. *)
Lemma scanUsernames_unique userMap username names (user : @User Payload) :
  (forall k v, get userMap k = Some v -> user_username v = username -> v = user) ->
  (exists k, In k names /\ get userMap k = Some user) ->
  user_username user = username ->
  scanUsernames userMap names username = Some user.
Proof.
  intros Hunique Hsome Hname.
  induction names as [|name rest IH]; destruct Hsome as [k [Hin Hget]].
  - destruct Hin.
  - simpl. destruct (get userMap name) as [v|] eqn:Ehead.
    + destruct (String.eqb (user_username v) username) eqn:Ematch.
      * apply String.eqb_eq in Ematch. f_equal. exact (Hunique _ _ Ehead Ematch).
      * destruct Hin as [->|Hin].
        -- rewrite Hget in Ehead. injection Ehead as <-.
           apply String.eqb_neq in Ematch. contradiction.
        -- apply IH. exists k. auto.
    + destruct Hin as [->|Hin]; [congruence|].
      apply IH. exists k. auto.
Qed.

Lemma find_username_Some username users :
  (exists u, In u users /\ user_username u = username) ->
  exists found,
    find (fun u => String.eqb (user_username u) username) users = Some found
    /\ In found users /\ user_username found = username.
Proof.
  intros [u [Hin Hname]].
  destruct (find (fun u => String.eqb (user_username u) username) users)
    as [found|] eqn:E.
  - exists found. apply find_some in E. destruct E as [Hf Heq].
    apply String.eqb_eq in Heq. auto.
  - pose proof (find_none _ _ E _ Hin) as Hfalse. simpl in Hfalse.
    apply String.eqb_neq in Hfalse. contradiction.
Qed.

(** Writing a sequence of entries under their own keys: a key reads as
    the last entry that has it, or as before. *)
Lemma get_fold_set {A} (key : A -> string) (xs : list A) (k : string) :
  forall m : Obj A,
    get (fold_left (fun m x => set m (key x) x) xs m) k
    = match find (fun x => String.eqb (key x) k) (rev xs) with
      | Some x => Some x
      | None => get m k
      end.
Proof.
  induction xs as [|x rest IH]; intros m; simpl; auto.
  rewrite IH, find_snoc.
  destruct (find _ (rev rest)); auto.
  rewrite get_set. destruct (String.eqb (key x) k); auto.
Qed.

Lemma wf_fold_set {A} (key : A -> string) (xs : list A) :
  forall m : Obj A, wf m -> wf (fold_left (fun m x => set m (key x) x) xs m).
Proof.
  induction xs as [|x rest IH]; intros m Hwf; simpl; auto.
  apply IH. now apply wf_set.
Qed.

(** [Object.assign] from a well-formed source: the source's value where it
    has the key, the target's elsewhere. *)
Lemma get_assign {V} (target source : Obj V) (k : string) :
  wf source ->
  get (assign target source) k
  = match get source k with
    | Some v => Some v
    | None => get target k
    end.
Proof.
  intros Hwf. destruct (get source k) as [v|] eqn:E.
  - now apply get_assign_wf.
  - now apply get_assign_omitted.
Qed.

Lemma keyedByName_empty : keyedByName (@empty (@User Payload)).
Proof. intros name user H. discriminate H. Qed.

Lemma keyedByName_set userMap name (user : @User Payload) :
  keyedByName userMap -> user_name user = name -> keyedByName (set userMap name user).
Proof.
  intros Hinv Hname k v. rewrite get_set.
  destruct (String.eqb name k) eqn:E.
  - apply String.eqb_eq in E. intros [= <-]. congruence.
  - apply Hinv.
Qed.

Lemma keyedByName_delete userMap name :
  keyedByName userMap -> keyedByName (delete userMap name).
Proof.
  intros Hinv k v. destruct (string_dec name k) as [<-|Hne].
  - rewrite get_delete_same. discriminate.
  - rewrite get_delete_other by assumption. apply Hinv.
Qed.

Lemma keyedByName_putUsers users :
  forall userMap, keyedByName userMap -> keyedByName (putUsers userMap users).
Proof.
  unfold putUsers. induction users as [|u rest IH]; intros userMap Hinv; simpl; auto.
  apply IH. now apply keyedByName_set.
Qed.

(** ** Memoised lookups *)

(** X1. After [getOrFetchUserByName] has fetched a name that was not
    cached, a second call for the same name is answered from the cache
    whatever the services would reply: it returns the same entity, issues
    no call and leaves the world as the first call left it. *)
Theorem getOrFetchUserByName_memoizes
        (remote' : forall r : @Request Payload, RpcError + Response r)
        name w (user : User) :
  get (userMapByName (store w)) name = None ->
  remote (GetUser name) = inr user ->
  let first := getOrFetchUserByName remote name w in
  fst first = inr user
  /\ getOrFetchUserByName remote' name (snd first) = (inr user, snd first).
Proof.
  intros Hmiss Hok first. unfold first.
  unfold getOrFetchUserByName, bind, read, await, state_setPartial, ret.
  cbn. rewrite Hmiss, Hok. cbn. now rewrite get_set_same.
Qed.

(** X2. [getOrFetchUserByUsername] answers from the cache when a cached
    account has the username: it returns a cached account with that
    username, issues no remote call and leaves the world as it was. *)
Theorem getOrFetchUserByUsername_cached username w :
  (exists name user,
      get (userMapByName (store w)) name = Some user
      /\ user_username user = username) ->
  exists found name',
    getOrFetchUserByUsername remote username w = (inr found, w)
    /\ get (userMapByName (store w)) name' = Some found
    /\ user_username found = username.
Proof.
  intros [name [user [Hget Hname]]].
  destruct (@scanUsernames_finds (userMapByName (store w)) username
                                 (keys (userMapByName (store w))))
    as [found [name' [Hscan [_ [Hfound Hu]]]]].
  { exists name, user.
    split; [eapply get_Some_key; exact Hget|]. split; assumption. }
  exists found, name'.
  unfold getOrFetchUserByUsername, bind, read. cbn. rewrite Hscan. auto.
Qed.

(** X3. When no cached account has the username and the search returns
    an account with exactly that username, [getOrFetchUserByUsername]
    sends one search request, returns a returned account with the
    username, files it under its own resource name and leaves every other
    key of the account map as it was. *)
Theorem getOrFetchUserByUsername_found username w users :
  (forall name user,
      get (userMapByName (store w)) name = Some user ->
      user_username user <> username) ->
  remote (SearchUsers username 10) = inr users ->
  (exists u, In u users /\ user_username u = username) ->
  let result := getOrFetchUserByUsername remote username w in
  exists found,
    fst result = inr found
    /\ In found users /\ user_username found = username
    /\ calls (snd result) = calls w ++ [SearchUsers username 10]
    /\ getUserByName (user_name found) (store (snd result)) = Some found
    /\ (forall other, other <> user_name found ->
          getUserByName other (store (snd result)) = getUserByName other (store w)).
Proof.
  intros Hcache Hok Hmatch result. unfold result.
  destruct (@find_username_Some username users Hmatch) as [found [Hfind [Hin Hname]]].
  exists found.
  unfold getOrFetchUserByUsername, bind, read, await, state_setPartial, ret, throw.
  cbn. rewrite (scanUsernames_None _ _ Hcache), Hok. cbn. rewrite Hfind. cbn.
  unfold getUserByName. cbn.
  split; [reflexivity|]. split; [exact Hin|]. split; [exact Hname|].
  split; [reflexivity|]. split; [apply get_set_same|].
  intros other Hne. apply get_set_other. congruence.
Qed.

(** X4. After [getOrFetchUserByUsername] has found a username through the
    search, a second call for the same username is answered from the
    cache whatever the services would reply: same account, no call, world
    unchanged. *)
Theorem getOrFetchUserByUsername_memoizes
        (remote' : forall r : @Request Payload, RpcError + Response r)
        username w users :
  (forall name user,
      get (userMapByName (store w)) name = Some user ->
      user_username user <> username) ->
  remote (SearchUsers username 10) = inr users ->
  (exists u, In u users /\ user_username u = username) ->
  let first := getOrFetchUserByUsername remote username w in
  exists found,
    fst first = inr found
    /\ getOrFetchUserByUsername remote' username (snd first) = (inr found, snd first).
Proof.
  intros Hcache Hok Hmatch first. unfold first.
  destruct (@find_username_Some username users Hmatch) as [found [Hfind [Hin Hname]]].
  exists found.
  unfold getOrFetchUserByUsername, bind, read, await, state_setPartial, ret, throw.
  cbn. rewrite (scanUsernames_None _ _ Hcache), Hok. cbn. rewrite Hfind. cbn.
  split; [reflexivity|].
  rewrite (@scanUsernames_unique _ username _ found); auto.
  - intros k v. rewrite get_set.
    destruct (String.eqb (user_name found) k); [congruence|].
    intros Hold Hu. exfalso. exact (Hcache _ _ Hold Hu).
  - exists (user_name found). split; [|apply get_set_same].
    eapply get_Some_key. apply get_set_same.
Qed.

(** X5. When [deleteUser] succeeds, one delete request has been sent, the
    name reads as absent from the account map and every other name reads
    as before. *)
Theorem deleteUser_removes name w :
  fst (deleteUser remote name w) = inr tt ->
  let after := snd (deleteUser remote name w) in
  calls after = calls w ++ [DeleteUser name]
  /\ getUserByName name (store after) = None
  /\ (forall other, other <> name ->
        getUserByName other (store after) = getUserByName other (store w)).
Proof.
  unfold deleteUser, bind, await, read, state_setPartial.
  destruct (remote (DeleteUser name)) as [e|[]]; cbn; [discriminate|].
  intros _. unfold getUserByName. cbn.
  split; [reflexivity|]. split; [apply get_delete_same|].
  intros other Hne. apply get_delete_other. congruence.
Qed.

(** ** Guards, refreshes and the inbox *)

Lemma truthy_nonempty (v : string) : v <> "" -> truthy (Some v) = Some v.
Proof.
  intros Hne. simpl. destruct (String.eqb v "") eqn:E; auto.
  apply String.eqb_eq in E. contradiction.
Qed.

Lemma truthy_absent (x : option string) : x = None \/ x = Some "" -> truthy x = None.
Proof. intros [->| ->]; reflexivity. Qed.

(** X6. With no current account (the marker is [undefined] or the empty
    string) the three operations scoped to it stop before any remote call
    and leave the world as it was: [updateUserSetting] throws
    [No current user], [fetchInboxes] throws [No current user available],
    and [fetchShortcuts] returns normally without doing anything. *)
Theorem guards_without_current_user w :
  currentUser (store w) = None \/ currentUser (store w) = Some "" ->
  (forall fromPartial setting updateMask,
      updateUserSetting remote fromPartial setting updateMask w
      = (inl (JsError "No current user"), w))
  /\ fetchInboxes remote w = (inl (JsError "No current user available"), w)
  /\ fetchShortcuts remote w = (inr tt, w).
Proof.
  intros Habsent. apply truthy_absent in Habsent.
  unfold updateUserSetting, fetchInboxes, fetchShortcuts, bind, read, throw, ret.
  cbn [fst snd]. rewrite Habsent. split; [|split]; reflexivity.
Qed.

(** X7. With a current account, a successful [fetchShortcuts] or
    [fetchInboxes] asks for the lists of that account and replaces the
    cached sequence by the listing as a whole, whatever was cached; the
    other sequence, the account map and the statistics stay as they were. *)
Theorem list_refresh_replaces w (current : string) :
  currentUser (store w) = Some current ->
  current <> "" ->
  (forall listed,
      remote (ListShortcuts current) = inr listed ->
      fst (fetchShortcuts remote w) = inr tt
      /\ calls (snd (fetchShortcuts remote w)) = calls w ++ [ListShortcuts current]
      /\ shortcuts (store (snd (fetchShortcuts remote w))) = listed
      /\ inboxes (store (snd (fetchShortcuts remote w))) = inboxes (store w)
      /\ userMapByName (store (snd (fetchShortcuts remote w))) = userMapByName (store w)
      /\ userStatsByName (store (snd (fetchShortcuts remote w)))
         = userStatsByName (store w))
  /\ (forall listed,
         remote (ListInboxes current) = inr listed ->
         fst (fetchInboxes remote w) = inr tt
         /\ calls (snd (fetchInboxes remote w)) = calls w ++ [ListInboxes current]
         /\ inboxes (store (snd (fetchInboxes remote w))) = listed
         /\ shortcuts (store (snd (fetchInboxes remote w))) = shortcuts (store w)
         /\ userMapByName (store (snd (fetchInboxes remote w)))
            = userMapByName (store w)
         /\ userStatsByName (store (snd (fetchInboxes remote w)))
            = userStatsByName (store w)).
Proof.
  intros Hcurrent Hne.
  pose proof (truthy_nonempty Hne) as Htruthy.
  split; intros listed Hok;
    unfold fetchShortcuts, fetchInboxes, bind, read, await, state_setPartial;
    cbn; rewrite Hcurrent, Htruthy, Hok; cbn;
    (split; [|split; [|split; [|split; [|split]]]]); reflexivity.
Qed.

(** X8. When [deleteInbox] succeeds, the cached inboxes are the former
    ones without those of the deleted name: an item is cached afterwards
    exactly when it was cached before and has another name. *)
Theorem deleteInbox_removes name w :
  fst (deleteInbox remote name w) = inr tt ->
  let after := snd (deleteInbox remote name w) in
  calls after = calls w ++ [DeleteInbox name]
  /\ (forall i, In i (inboxes (store after))
                <-> In i (inboxes (store w)) /\ inbox_name i <> name).
Proof.
  unfold deleteInbox, bind, await, read, state_setPartial.
  destruct (remote (DeleteInbox name)) as [e|[]]; cbn; [discriminate|].
  intros _. split; [reflexivity|].
  intros i. rewrite filter_In.
  destruct (String.eqb (inbox_name i) name) eqn:E; simpl.
  - apply String.eqb_eq in E. split; [intros [_ H]; discriminate|].
    intros [_ H]. contradiction.
  - apply String.eqb_neq in E. tauto.
Qed.

(** X9. When [updateInbox] succeeds, the cached sequence keeps its length;
    afterwards it holds the response (where an item of the response's
    name was cached) and the former items of other names, so no older
    copy of the updated item is left. *)
Theorem updateInbox_replaces (inbox : PartialInbox) (updateMask : list string) w
        (updated : @Inbox Payload) :
  remote (UpdateInbox inbox updateMask) = inr updated ->
  let after := snd (updateInbox remote inbox updateMask w) in
  fst (updateInbox remote inbox updateMask w) = inr updated
  /\ List.length (inboxes (store after)) = List.length (inboxes (store w))
  /\ (forall i,
         In i (inboxes (store after))
         <-> (i = updated
              /\ exists old, In old (inboxes (store w))
                             /\ inbox_name old = inbox_name updated)
             \/ (In i (inboxes (store w)) /\ inbox_name i <> inbox_name updated)).
Proof.
  intros Hok. unfold updateInbox, bind, await, read, state_setPartial, ret.
  rewrite Hok. cbn. split; [reflexivity|]. split; [apply length_map|].
  intros i. rewrite in_map_iff. split.
  - intros [old [Hf Hin]].
    destruct (String.eqb (inbox_name old) (inbox_name updated)) eqn:E.
    + apply String.eqb_eq in E. left. split; [congruence|]. exists old. auto.
    + apply String.eqb_neq in E. right. subst i. auto.
  - intros [[-> [old [Hin Hname]]] | [Hin Hne]].
    + exists old. split; [|exact Hin].
      apply String.eqb_eq in Hname. now rewrite Hname.
    + exists i. split; [|exact Hin].
      apply String.eqb_neq in Hne. now rewrite Hne.
Qed.

(** ** Statistics *)

(** X10. A successful [fetchUserStats] for one account files the response
    under the account name the caller gave (not under the name the response
    carries) and leaves every other statistics entry as it was. *)
Theorem fetchUserStats_single (user : string) w (stats : @UserStats Payload) :
  user <> "" ->
  remote (GetUserStats user) = inr stats ->
  let after := snd (fetchUserStats remote (Some user) w) in
  fst (fetchUserStats remote (Some user) w) = inr tt
  /\ calls after = calls w ++ [GetUserStats user]
  /\ get (userStatsByName (store after)) user = Some stats
  /\ (forall other, other <> user ->
        get (userStatsByName (store after)) other
        = get (userStatsByName (store w)) other).
Proof.
  intros Hne Hok.
  unfold fetchUserStats, bind, await, read, state_setPartial, ret.
  rewrite (truthy_nonempty Hne). rewrite Hok. cbn.
  split; [reflexivity|]. split; [reflexivity|].
  split; [apply get_set_same|].
  intros other Hother. apply get_set_other. congruence.
Qed.

(** X11. A successful [fetchUserStats] without an account (or with the
    empty string) lists the statistics of all accounts once; afterwards
    every listed entry's name holds a listed entry of that name, and a
    name that was not listed reads as before. *)
Theorem fetchUserStats_all (user : option string) w
        (listed : list (@UserStats Payload)) :
  user = None \/ user = Some "" ->
  remote ListAllUserStats = inr listed ->
  let after := snd (fetchUserStats remote user w) in
  fst (fetchUserStats remote user w) = inr tt
  /\ calls after = calls w ++ [ListAllUserStats]
  /\ (forall stats, In stats listed ->
        exists stored,
          get (userStatsByName (store after)) (stats_name stats) = Some stored
          /\ In stored listed /\ stats_name stored = stats_name stats)
  /\ (forall name, ~ In name (map stats_name listed) ->
        get (userStatsByName (store after)) name
        = get (userStatsByName (store w)) name).
Proof.
  intros Habsent Hok. apply truthy_absent in Habsent.
  unfold fetchUserStats, bind, await, read, state_setPartial, ret.
  rewrite Habsent, Hok. cbn.
  split; [reflexivity|]. split; [reflexivity|].
  assert (Hwf : wf (fold_left (fun byName stats => set byName (stats_name stats) stats)
                              listed (@empty (@UserStats Payload)))).
  { apply wf_fold_set. apply wf_empty. }
  split.
  - intros stats Hin. rewrite (get_assign _ _ Hwf), get_fold_set.
    destruct (find (fun x => String.eqb (stats_name x) (stats_name stats)) (rev listed))
      as [stored|] eqn:E.
    + exists stored. apply find_some in E. destruct E as [Hs Heq].
      apply String.eqb_eq in Heq. apply in_rev in Hs. auto.
    + apply in_rev in Hin. pose proof (find_none _ _ E _ Hin) as Hfalse.
      simpl in Hfalse. now rewrite String.eqb_refl in Hfalse.
  - intros name Hout. rewrite (get_assign _ _ Hwf), get_fold_set.
    destruct (find (fun x => String.eqb (stats_name x) name) (rev listed))
      as [stored|] eqn:E; auto.
    apply find_some in E. destruct E as [Hs Heq].
    apply String.eqb_eq in Heq. apply in_rev in Hs.
    exfalso. apply Hout. rewrite <- Heq. now apply in_map.
Qed.

(** X12. After the statistics of the current account have been fetched,
    the [currentUserStats] getter reads the response. *)
Theorem currentUserStats_after_fetch w (current : string)
        (stats : @UserStats Payload) :
  currentUser (store w) = Some current ->
  current <> "" ->
  remote (GetUserStats current) = inr stats ->
  currentUserStats (store (snd (fetchUserStats remote (Some current) w))) = Some stats.
Proof.
  intros Hcurrent Hne Hok.
  unfold fetchUserStats, bind, await, read, state_setPartial, ret.
  rewrite (truthy_nonempty Hne). rewrite Hok. cbn.
  unfold currentUserStats. cbn -[truthy get set].
  rewrite Hcurrent, (truthy_nonempty Hne). apply get_set_same.
Qed.

(** ** The session bootstrap *)

(** X13. When the session call answers without a user, the bootstrap
    clears the current-account marker, the settings and the account map,
    makes no second call and sends nothing to the workspace store; the
    cached shortcuts, inboxes and statistics are not cleared. *)
Theorem initialUserStore_no_session
        (fromPartial : UserSetting -> UserSetting)
        (findNearestMatchedLanguage : string -> string) (navigator_language : string)
        w :
  remote GetCurrentSession = inr None ->
  let result :=
    initialUserStore remote fromPartial findNearestMatchedLanguage navigator_language w in
  fst result = inr tt
  /\ calls (snd result) = calls w ++ [GetCurrentSession]
  /\ workspacePatches (snd result) = workspacePatches w
  /\ currentUser (store (snd result)) = None
  /\ userSetting (store (snd result)) = None
  /\ userMapByName (store (snd result)) = empty
  /\ shortcuts (store (snd result)) = shortcuts (store w)
  /\ inboxes (store (snd result)) = inboxes (store w)
  /\ userStatsByName (store (snd result)) = userStatsByName (store w).
Proof.
  intros Hnone result. unfold result, initialUserStore, tryCatch, bind, await,
    state_setPartial.
  rewrite Hnone. cbn.
  split; [|split; [|split; [|split; [|split; [|split; [|split; [|split]]]]]]];
    reflexivity.
Qed.

(** X14. When the session resolves to an account and its settings arrive,
    the bootstrap makes exactly these two calls, marks the account as
    current, stores [fromPartial] of the settings, replaces the account map
    by the one entry of that account (earlier entries are dropped), and
    sends the locale and appearance of the response to the workspace
    store. *)
Theorem initialUserStore_ready
        (fromPartial : UserSetting -> UserSetting)
        (findNearestMatchedLanguage : string -> string) (navigator_language : string)
        w (current : @User Payload) (setting : UserSetting) :
  remote GetCurrentSession = inr (Some current) ->
  remote (GetUserSetting (user_name current)) = inr setting ->
  let result :=
    initialUserStore remote fromPartial findNearestMatchedLanguage navigator_language w in
  fst result = inr tt
  /\ calls (snd result)
     = calls w ++ [GetCurrentSession; GetUserSetting (user_name current)]
  /\ workspacePatches (snd result)
     = workspacePatches w
         ++ [LocaleAndAppearance (readField setting "locale")
                                 (readField setting "appearance")]
  /\ currentUser (store (snd result)) = Some (user_name current)
  /\ userSetting (store (snd result)) = Some (fromPartial setting)
  /\ getUserByName (user_name current) (store (snd result)) = Some current
  /\ (forall other, other <> user_name current ->
        getUserByName other (store (snd result)) = None).
Proof.
  intros Hsession Hsetting result.
  unfold result, initialUserStore, tryCatch, bind, await, state_setPartial,
    workspace_setPartial.
  rewrite Hsession. cbn. rewrite Hsetting. cbn. unfold getUserByName. cbn.
  split; [reflexivity|]. split; [now rewrite <- app_assoc|].
  split; [reflexivity|]. split; [reflexivity|]. split; [reflexivity|].
  split; [now rewrite String.eqb_refl|].
  intros other Hne.
  destruct (String.eqb (user_name current) other) eqn:E; auto.
  apply String.eqb_eq in E. congruence.
Qed.

(** X15. The bootstrap never throws: whatever the services reply, it
    returns normally. *)
Theorem initialUserStore_never_throws
        (fromPartial : UserSetting -> UserSetting)
        (findNearestMatchedLanguage : string -> string) (navigator_language : string)
        w :
  fst (initialUserStore remote fromPartial findNearestMatchedLanguage
                        navigator_language w) = inr tt.
Proof.
  unfold initialUserStore, tryCatch, bind, await, state_setPartial,
    workspace_setPartial.
  destruct (remote GetCurrentSession) as [e|[current|]]; cbn; auto.
  destruct (remote (GetUserSetting (user_name current))) as [e|setting]; cbn; auto.
Qed.

(** X18. The bootstrap keeps the account map keyed by resource name,
    whatever the services reply. *)
Theorem initialUserStore_keeps_keyedByName
        (fromPartial : UserSetting -> UserSetting)
        (findNearestMatchedLanguage : string -> string) (navigator_language : string)
        w :
  keyedByName (userMapByName (store w)) ->
  keyedByName
    (userMapByName
       (store (snd (initialUserStore remote fromPartial findNearestMatchedLanguage
                                     navigator_language w)))).
Proof.
  intros Hinv.
  unfold initialUserStore, tryCatch, bind, await, state_setPartial,
    workspace_setPartial.
  destruct (remote GetCurrentSession) as [e|[current|]]; cbn -[set]; auto.
  - destruct (remote (GetUserSetting (user_name current))) as [e|setting];
      cbn -[set]; auto.
    apply keyedByName_set; [apply keyedByName_empty | reflexivity].
  - apply keyedByName_empty.
Qed.

(** ** All eleven operations *)

(** X17. Every operation keeps the account map keyed by resource name,
    [getOrFetchUserByName] under the condition that the services answer a
    request for a name with the account of that name. *)
Theorem run_keeps_keyedByName
        (fromPartial : UserSetting -> UserSetting) (op : Operation) w :
  match op with
  | CallGetOrFetchUserByName name =>
      forall user : @User Payload, remote (GetUser name) = inr user -> user_name user = name
  | _ => True
  end ->
  keyedByName (userMapByName (store w)) ->
  keyedByName (userMapByName (store (snd (run remote fromPartial op w)))).
Proof.
  intros Hecho Hinv.
  destruct op; unfold run, discard, getOrFetchUserByName, getOrFetchUserByUsername,
    fetchUsers, updateUser, deleteUser, updateUserSetting, fetchShortcuts,
    fetchInboxes, updateInbox, deleteInbox, fetchUserStats,
    bind, read, await, state_setPartial, ret, throw; cbn -[set delete putUsers];
  repeat match goal with
         | |- context [truthy ?x] => destruct (truthy x) eqn:?; cbn -[set delete putUsers]
         | |- context [match get ?m ?k with _ => _ end] =>
             destruct (get m k) eqn:?; cbn -[set delete putUsers]
         | |- context [scanUsernames ?m ?l ?u] =>
             destruct (scanUsernames m l u) eqn:?; cbn -[set delete putUsers]
         | |- context [remote ?q] => destruct (remote q) eqn:?; cbn -[set delete putUsers]
         | |- context [find ?f ?l] => destruct (find f l) eqn:?; cbn -[set delete putUsers]
         end;
  auto using keyedByName_set, keyedByName_delete, keyedByName_putUsers.
Qed.

(** X19. Every operation issues at most one remote call. *)
Theorem run_at_most_one_call
        (fromPartial : UserSetting -> UserSetting) (op : Operation) w :
  calls (snd (run remote fromPartial op w)) = calls w
  \/ exists r, calls (snd (run remote fromPartial op w)) = calls w ++ [r].
Proof.
  destruct op; unfold run, discard, getOrFetchUserByName, getOrFetchUserByUsername,
    fetchUsers, updateUser, deleteUser, updateUserSetting, fetchShortcuts,
    fetchInboxes, updateInbox, deleteInbox, fetchUserStats,
    bind, read, await, state_setPartial, ret, throw; cbn;
  repeat match goal with
         | |- context [truthy ?x] => destruct (truthy x) eqn:?; cbn
         | |- context [match get ?m ?k with _ => _ end] => destruct (get m k) eqn:?; cbn
         | |- context [scanUsernames ?m ?l ?u] =>
             destruct (scanUsernames m l u) eqn:?; cbn
         | |- context [remote ?q] => destruct (remote q) eqn:?; cbn
         | |- context [find ?f ?l] => destruct (find f l) eqn:?; cbn
         end;
  first [ left; reflexivity | right; eexists; reflexivity ].
Qed.

(** X20. No operation changes the current-account marker or the generation
    token, and none sends anything to the workspace store. *)
Theorem run_frame
        (fromPartial : UserSetting -> UserSetting) (op : Operation) w :
  currentUser (store (snd (run remote fromPartial op w))) = currentUser (store w)
  /\ statsStateId (store (snd (run remote fromPartial op w))) = statsStateId (store w)
  /\ workspacePatches (snd (run remote fromPartial op w)) = workspacePatches w.
Proof.
  destruct op; unfold run, discard, getOrFetchUserByName, getOrFetchUserByUsername,
    fetchUsers, updateUser, deleteUser, updateUserSetting, fetchShortcuts,
    fetchInboxes, updateInbox, deleteInbox, fetchUserStats,
    bind, read, await, state_setPartial, ret, throw; cbn;
  repeat match goal with
         | |- context [truthy ?x] => destruct (truthy x) eqn:?; cbn
         | |- context [match get ?m ?k with _ => _ end] => destruct (get m k) eqn:?; cbn
         | |- context [scanUsernames ?m ?l ?u] =>
             destruct (scanUsernames m l u) eqn:?; cbn
         | |- context [remote ?q] => destruct (remote q) eqn:?; cbn
         | |- context [find ?f ?l] => destruct (find f l) eqn:?; cbn
         end;
  (split; [|split]); reflexivity.
Qed.
End MoreFacts.

(** ** The further properties on the sample data *)

Lemma sampleStore_has_no_alicia :
  forall name user,
    get (userMapByName (store sampleWorld)) name = Some user ->
    user_username user <> "alicia".
Proof.
  intros name user H.
  unfold sampleWorld, sampleStore in H. cbn [store userMapByName get] in H.
  destruct (String.eqb "users/1" name); [injection H as <-; discriminate|].
  destruct (String.eqb "users/2" name); [injection H as <-; discriminate|].
  discriminate.
Defined.

Lemma sampleStore_keyedByName : keyedByName (userMapByName (store sampleWorld)).
Proof.
  intros name user H.
  unfold sampleWorld, sampleStore in H. cbn [store userMapByName get] in H.
  destruct (String.eqb "users/1" name) eqn:E1;
    [injection H as <-; now apply String.eqb_eq in E1|].
  destruct (String.eqb "users/2" name) eqn:E2;
    [injection H as <-; now apply String.eqb_eq in E2|].
  discriminate.
Defined.

(** X1 on a name fetched while the services answer and asked again when
    they are down. *)
Lemma getOrFetchUserByName_memoizes_sample :
  fst (getOrFetchUserByName online "users/3" sampleWorld) = inr alicia
  /\ getOrFetchUserByName offline "users/3"
                          (snd (getOrFetchUserByName online "users/3" sampleWorld))
     = (inr alicia, snd (getOrFetchUserByName online "users/3" sampleWorld)).
Proof.
  exact (@getOrFetchUserByName_memoizes _ _ online offline "users/3" sampleWorld alicia
                                        eq_refl eq_refl).
Defined.

(** X2 on a cached username, with the services down. *)
Lemma getOrFetchUserByUsername_cached_sample :
  exists found name',
    getOrFetchUserByUsername offline "bob" sampleWorld = (inr found, sampleWorld)
    /\ get (userMapByName (store sampleWorld)) name' = Some found
    /\ user_username found = "bob".
Proof.
  apply (@getOrFetchUserByUsername_cached _ _ offline "bob" sampleWorld).
  exists "users/2", bob. split; reflexivity.
Defined.

(** X3 on a username that the search finds. *)
Lemma getOrFetchUserByUsername_found_sample :
  exists found,
    fst (getOrFetchUserByUsername online "alicia" sampleWorld) = inr found
    /\ user_username found = "alicia"
    /\ getUserByName (user_name found)
                     (store (snd (getOrFetchUserByUsername online "alicia" sampleWorld)))
       = Some found.
Proof.
  destruct (@getOrFetchUserByUsername_found
              _ _ online "alicia" sampleWorld [alice; alicia]
              sampleStore_has_no_alicia eq_refl
              (ex_intro _ alicia (conj (or_intror (or_introl eq_refl)) eq_refl)))
    as [found [Hreturned [_ [Hname [_ [Hstored _]]]]]].
  exists found. split; [exact Hreturned | split; [exact Hname | exact Hstored]].
Defined.

(** X4 on the same username, asked again with the services down. *)
Lemma getOrFetchUserByUsername_memoizes_sample :
  exists found,
    fst (getOrFetchUserByUsername online "alicia" sampleWorld) = inr found
    /\ getOrFetchUserByUsername
         offline "alicia" (snd (getOrFetchUserByUsername online "alicia" sampleWorld))
       = (inr found, snd (getOrFetchUserByUsername online "alicia" sampleWorld)).
Proof.
  exact (@getOrFetchUserByUsername_memoizes
           _ _ online offline "alicia" sampleWorld [alice; alicia]
           sampleStore_has_no_alicia eq_refl
           (ex_intro _ alicia (conj (or_intror (or_introl eq_refl)) eq_refl))).
Defined.

(** X5 on a cached account. *)
Lemma deleteUser_removes_sample :
  calls (snd (deleteUser online "users/2" sampleWorld)) = [DeleteUser "users/2"]
  /\ getUserByName "users/2" (store (snd (deleteUser online "users/2" sampleWorld)))
     = None
  /\ getUserByName "users/1" (store (snd (deleteUser online "users/2" sampleWorld)))
     = Some alice.
Proof.
  destruct (@deleteUser_removes _ _ online "users/2" sampleWorld eq_refl)
    as [Hcalls [Hgone Hkept]].
  split; [exact Hcalls|]. split; [exact Hgone|].
  rewrite Hkept; [reflexivity | discriminate].
Defined.

(** X6 at start-up. *)
Lemma guards_without_current_user_sample :
  updateUserSetting online sampleFromPartial frenchSetting ["locale"] freshWorld
  = (inl (JsError "No current user"), freshWorld)
  /\ fetchInboxes online freshWorld
     = (inl (JsError "No current user available"), freshWorld)
  /\ fetchShortcuts online freshWorld = (inr tt, freshWorld).
Proof.
  destruct (@guards_without_current_user _ _ online freshWorld (or_introl eq_refl))
    as [Hsetting [Hinboxes Hshortcuts]].
  split; [apply Hsetting | split; [exact Hinboxes | exact Hshortcuts]].
Defined.

(** X7 on a store with two cached inboxes and no shortcut. *)
Lemma list_refresh_replaces_sample :
  shortcuts (store (snd (fetchShortcuts online sampleWorld))) = ["pinned"]
  /\ inboxes (store (snd (fetchInboxes online sampleWorld))) = [mention].
Proof.
  assert (Hne : "users/1" <> "") by discriminate.
  destruct (@list_refresh_replaces _ _ online sampleWorld "users/1" eq_refl Hne)
    as [Hshortcuts Hinboxes].
  destruct (Hshortcuts ["pinned"] eq_refl) as [_ [_ [Hs _]]].
  destruct (Hinboxes [mention] eq_refl) as [_ [_ [Hi _]]].
  split; [exact Hs | exact Hi].
Defined.

(** X8 on one of two cached inboxes. *)
Lemma deleteInbox_removes_sample :
  In reply (inboxes (store (snd (deleteInbox online "inboxes/1" sampleWorld))))
  /\ ~ In mention (inboxes (store (snd (deleteInbox online "inboxes/1" sampleWorld)))).
Proof.
  destruct (@deleteInbox_removes _ _ online "inboxes/1" sampleWorld eq_refl)
    as [_ Hiff].
  split.
  - apply Hiff. split; [right; left; reflexivity | discriminate].
  - intros Hin. apply Hiff in Hin. destruct Hin as [_ Hne]. now apply Hne.
Defined.

(** X9 on a store caching an older copy of the updated inbox. *)
Lemma updateInbox_replaces_sample :
  List.length (inboxes (store (snd (updateInbox online "archive" ["status"] crowdedWorld))))
  = 2
  /\ In stranger
        (inboxes (store (snd (updateInbox online "archive" ["status"] crowdedWorld))))
  /\ ~ In strangerUnread
        (inboxes (store (snd (updateInbox online "archive" ["status"] crowdedWorld)))).
Proof.
  destruct (@updateInbox_replaces _ _ online "archive" ["status"] crowdedWorld stranger
                                  eq_refl)
    as [_ [Hlength Hiff]].
  split; [exact Hlength|]. split.
  - apply Hiff. left. split; [reflexivity|].
    exists strangerUnread. split; [right; left; reflexivity | reflexivity].
  - intros Hin. apply Hiff in Hin.
    destruct Hin as [[Heq _] | [_ Hne]]; [discriminate Heq | now apply Hne].
Defined.

(** X10 on a response that carries another account's name than the one
    asked for. *)
Lemma fetchUserStats_single_sample :
  get (userStatsByName (store (snd (fetchUserStats online (Some "users/2") sampleWorld))))
      "users/2" = Some aliceStats
  /\ get (userStatsByName
            (store (snd (fetchUserStats online (Some "users/2") sampleWorld))))
         "users/1" = Some aliceStats.
Proof.
  assert (Hne : "users/2" <> "") by discriminate.
  destruct (@fetchUserStats_single _ _ online "users/2" sampleWorld aliceStats
                                   Hne eq_refl)
    as [_ [_ [Hstored Hkept]]].
  split; [exact Hstored|]. rewrite Hkept; [reflexivity | discriminate].
Defined.

(** X11 at start-up. *)
Lemma fetchUserStats_all_sample :
  exists stored,
    get (userStatsByName (store (snd (fetchUserStats online None freshWorld))))
        "users/2" = Some stored
    /\ In stored [aliceStats; bobStats]
    /\ stats_name stored = "users/2".
Proof.
  destruct (@fetchUserStats_all _ _ online None freshWorld [aliceStats; bobStats]
                                (or_introl eq_refl) eq_refl)
    as [_ [_ [Hlisted _]]].
  exact (Hlisted bobStats (or_intror (or_introl eq_refl))).
Defined.

(** X12 on a store without statistics. *)
Lemma currentUserStats_after_fetch_sample :
  currentUserStats (store (snd (fetchUserStats online (Some "users/1") crowdedWorld)))
  = Some aliceStats.
Proof.
  assert (Hne : "users/1" <> "") by discriminate.
  exact (@currentUserStats_after_fetch _ _ online crowdedWorld "users/1" aliceStats
                                       eq_refl Hne eq_refl).
Defined.

(** X13 on a store that has a session. *)
Lemma initialUserStore_no_session_sample :
  currentUser
    (store (snd (initialUserStore signedOut sampleFromPartial sampleLocale "fr-CA"
                                  sampleWorld))) = None
  /\ userMapByName
       (store (snd (initialUserStore signedOut sampleFromPartial sampleLocale "fr-CA"
                                     sampleWorld))) = empty
  /\ inboxes
       (store (snd (initialUserStore signedOut sampleFromPartial sampleLocale "fr-CA"
                                     sampleWorld))) = [mention; reply]
  /\ workspacePatches
       (snd (initialUserStore signedOut sampleFromPartial sampleLocale "fr-CA"
                              sampleWorld)) = [].
Proof.
  destruct (@initialUserStore_no_session _ _ signedOut sampleFromPartial sampleLocale
                                         "fr-CA" sampleWorld eq_refl)
    as [_ [_ [Hpatches [Hcurrent [_ [Hmap [_ [Hinboxes _]]]]]]]].
  split; [exact Hcurrent|]. split; [exact Hmap|].
  split; [exact Hinboxes | exact Hpatches].
Defined.

(** X14 at start-up. *)
Lemma initialUserStore_ready_sample :
  calls (snd (initialUserStore online sampleFromPartial sampleLocale "fr-CA" freshWorld))
  = [GetCurrentSession; GetUserSetting "users/1"]
  /\ currentUser
       (store (snd (initialUserStore online sampleFromPartial sampleLocale "fr-CA"
                                     freshWorld))) = Some "users/1"
  /\ getUserByName
       "users/1"
       (store (snd (initialUserStore online sampleFromPartial sampleLocale "fr-CA"
                                     freshWorld))) = Some alice
  /\ workspacePatches
       (snd (initialUserStore online sampleFromPartial sampleLocale "fr-CA" freshWorld))
     = [LocaleAndAppearance (Some "en") (Some "dark")].
Proof.
  destruct (@initialUserStore_ready _ _ online sampleFromPartial sampleLocale "fr-CA"
                                    freshWorld alice aliceSetting eq_refl eq_refl)
    as [_ [Hcalls [Hpatches [Hcurrent [_ [Hmap _]]]]]].
  split; [exact Hcalls|]. split; [exact Hcurrent|].
  split; [exact Hmap | exact Hpatches].
Defined.

(** X16 at start-up, with a session and the settings call rejected. *)
Lemma initialUserStore_setting_failure_sample :
  initialUserStore settingsDown sampleFromPartial sampleLocale "fr-CA" freshWorld
  = (inr tt,
     mkWorld (newLocalState "1") [GetCurrentSession; GetUserSetting "users/1"]
             [LocaleOnly "en"]).
Proof.
  exact (@initialUserStore_setting_failure
           _ _ settingsDown sampleFromPartial sampleLocale "fr-CA" freshWorld alice
           "UNAVAILABLE" eq_refl eq_refl).
Defined.

(** X17 on a lookup that the services answer with the account of the
    requested name. *)
Lemma run_keeps_keyedByName_sample :
  keyedByName (userMapByName (store sampleWorld))
  /\ keyedByName
       (userMapByName
          (store (snd (run online sampleFromPartial (CallGetOrFetchUserByName "users/3")
                           sampleWorld)))).
Proof.
  split; [exact sampleStore_keyedByName|].
  apply (@run_keeps_keyedByName _ _ online sampleFromPartial
                                (CallGetOrFetchUserByName "users/3") sampleWorld);
    [|exact sampleStore_keyedByName].
  intros user H. injection H as <-. reflexivity.
Defined.

(** X18 on a store that has a session. *)
Lemma initialUserStore_keeps_keyedByName_sample :
  keyedByName (userMapByName (store sampleWorld))
  /\ keyedByName
       (userMapByName
          (store (snd (initialUserStore online sampleFromPartial sampleLocale "fr-CA"
                                        sampleWorld)))).
Proof.
  split; [exact sampleStore_keyedByName|].
  exact (@initialUserStore_keeps_keyedByName
           _ _ online sampleFromPartial sampleLocale "fr-CA" sampleWorld
           sampleStore_keyedByName).
Defined.
